(** * ARAHATE dataset merger: a shallow embedding of
    [Convertors/combining_datasets.py] and the properties of its text
    normalizer, label mapper, table loader and merge routine.

    Python [str] values are sequences of Unicode code points and are modelled
    as [list N].  Dictionaries are stdpp [gmap]s.  The functions of the Python
    runtime the script calls but does not define ([unicodedata.normalize],
    [str.lower], [glob.glob], the pandas readers) are fields of a [runtime]
    record that every embedded function receives; theorems quantify over it. *)

From Stdlib Require Import NArith String Ascii List Lia DecimalString DecimalNat Sorted.
From stdpp Require Import base option list gmap fin_maps.
Import ListNotations.

(** ** Python strings *)

Module Py.

Abbreviation pystr := (list N).

(** An ASCII literal as a Python string. *)
Definition py (s : string) : pystr := N_of_ascii <$> list_ascii_of_string s.

(** [str.isspace] for one code point; the [re] class [\s] of a [str] pattern
    tests exactly the same set. *)
Definition isspace (c : N) : bool :=
  ((0x09 <=? c) && (c <=? 0x0D) || (0x1C <=? c) && (c <=? 0x20)
   || (c =? 0x85) || (c =? 0xA0) || (c =? 0x1680)
   || (0x2000 <=? c) && (c <=? 0x200A)
   || (c =? 0x2028) || (c =? 0x2029) || (c =? 0x202F) || (c =? 0x205F)
   || (c =? 0x3000))%N.

Fixpoint lstrip (s : pystr) : pystr :=
  match s with
  | [] => []
  | c :: r => if isspace c then lstrip r else s
  end.

Fixpoint rstrip (s : pystr) : pystr :=
  match s with
  | [] => []
  | c :: r =>
      match rstrip r with
      | [] => if isspace c then [] else [c]
      | r' => c :: r'
      end
  end.

(** [s.strip()] *)
Definition strip (s : pystr) : pystr := lstrip (rstrip s).

(** [re.sub(r'\s+', ' ', s)]: every maximal run of whitespace becomes one
    space.  [in_run] tells that the previous character belonged to a run
    whose replacement has already been emitted. *)
Fixpoint sub_ws (in_run : bool) (s : pystr) : pystr :=
  match s with
  | [] => []
  | c :: r =>
      if isspace c
      then (if in_run then sub_ws true r else 0x20%N :: sub_ws true r)
      else c :: sub_ws false r
  end.

(** Values handed to [str()]: [None], a [str], or another object given by
    its [str()] form (a float NaN prints as nan, an int as its digits). *)
Inductive pyval :=
  | PyNone
  | PyStr (s : pystr)
  | PyObj (str_form : pystr).

Definition str (v : pyval) : pystr :=
  match v with
  | PyNone => py "None"
  | PyStr s => s
  | PyObj s => s
  end.

(** Lexicographic order on code points: Python's [<=] on [str]. *)
Fixpoint str_le (a b : pystr) : bool :=
  match a, b with
  | [], _ => true
  | _ :: _, [] => false
  | x :: a', y :: b' => (x <? y)%N || (x =? y)%N && str_le a' b'
  end.

Fixpoint insert_sorted (x : pystr) (l : list pystr) : list pystr :=
  match l with
  | [] => [x]
  | y :: r => if str_le x y then x :: l else y :: insert_sorted x r
  end.

(** [sorted(l)] on a list of strings. *)
Definition sorted (l : list pystr) : list pystr := foldr insert_sorted [] l.

(** Decimal form of a non-negative int: [str(i)]. *)
Definition str_of_nat (n : nat) : pystr :=
  py (NilEmpty.string_of_uint (Nat.to_uint n)).

End Py.
Export Py.

(** ** The Python runtime the script runs on *)

Inductive exn_class :=
  | ValueError
  | RuntimeError
  | OtherException (name : pystr) (value_error : bool).

(** An exception instance: its class and its [str()] message. *)
Record exn := Exn { exn_cls : exn_class; exn_msg : pystr }.

(** [isinstance(e, ValueError)], what [except ValueError] tests. *)
Definition is_ValueError (e : exn) : bool :=
  match exn_cls e with
  | ValueError => true
  | RuntimeError => false
  | OtherException _ b => b
  end.

(** A pandas column, with the answer of [pd.api.types.is_string_dtype]. *)
Record Column := Col {
  col_name : pystr;
  col_string_dtype : bool;
  col_values : list pyval }.

(** A pandas frame, column by column, with its index labels. *)
Record DataFrame := Frame {
  df_columns : list Column;
  df_index : list pyval }.

(** The default index of a frame of [n] rows: the ints [0 .. n-1]. *)
Definition RangeIndex (n : nat) : list pyval :=
  (fun i => PyObj (str_of_nat i)) <$> seq 0 n.

(** Library functions and the file system.  The readers return the
    exception they raise ([inl]) or the frame they load ([inr]). *)
Record runtime := Runtime {
  unicodedata_normalize_NFKC : pystr -> pystr;
  str_lower : pystr -> pystr;
  glob_glob : pystr -> list pystr;
  pd_read_csv : pystr -> pystr -> pystr -> exn + DataFrame;
  pd_read_json : pystr -> bool -> exn + DataFrame;
  pd_read_excel : pystr -> exn + DataFrame;
  pd_read_parquet : pystr -> exn + DataFrame }.

(** ** [os.path] (POSIX flavour) *)

Module OsPath.

Definition sep : N := 0x2F%N.
Definition extsep : N := 0x2E%N.

(** [p.rfind(c)], [None] standing for -1. *)
Fixpoint rfind (c : N) (p : pystr) : option nat :=
  match p with
  | [] => None
  | x :: r =>
      match rfind c r with
      | Some i => Some (S i)
      | None => if (x =? c)%N then Some 0 else None
      end
  end.

(** [os.path.basename(p)]: what follows the last separator. *)
Definition basename (p : pystr) : pystr :=
  match rfind sep p with
  | Some i => drop (S i) p
  | None => p
  end.

(** [os.path.splitext(p)]: the extension starts at the last dot of the last
    path component, unless that component has only dots before it. *)
Definition splitext (p : pystr) : pystr * pystr :=
  let filenameIndex := match rfind sep p with Some i => S i | None => 0 end in
  match rfind extsep p with
  | Some dotIndex =>
      if Nat.leb filenameIndex dotIndex
      then
        if forallb (N.eqb extsep) (take (dotIndex - filenameIndex) (drop filenameIndex p))
        then (p, [])
        else (take dotIndex p, drop dotIndex p)
      else (p, [])
  | None => (p, [])
  end.

(** [os.path.join(a, b)] *)
Definition join (a b : pystr) : pystr :=
  match b with
  | 0x2F%N :: _ => b
  | _ =>
      match last a with
      | None => b
      | Some c => if (c =? sep)%N then a ++ b else a ++ sep :: b
      end
  end.

End OsPath.

(** ** The script: configuration constants *)

Definition INPUT_DIR : pystr := py "All_datasets/".
Definition OUTPUT_PATH : pystr := py "Merged_dataset.csv".
Definition PER_SOURCE_DIST_OUT : pystr :=
  py "merged_3class_per_source_distribution.csv".
Definition SUMMARY_JSON_OUT : pystr := py "merged_3class_summary.json".

Definition DROP_UNMAPPED : bool := false.
Definition DEFAULT_MAP_TARGET : pystr := py "normal".
Definition DROP_EXACT_DUPLICATES : bool := false.
Definition KEEP_ALL_COLUMNS : bool := true.
Definition ORIGINAL_TEXT_COL : pystr := py "original_text".

Definition CANONICAL_LABELS : list pystr :=
  [py "normal"; py "offensive"; py "profanity"].

(** [x in collection] for a literal set or list of strings. *)
Definition str_in (x : pystr) (l : list pystr) : bool :=
  bool_decide (x ∈ l).

(** A nested label mapping: source name, then original label. *)
Abbreviation LabelMap := (gmap pystr (gmap pystr pystr)).

(** The dict display of [get_label_map]; as in Python a later entry would
    replace an earlier one with the same key. *)
Definition get_label_map : LabelMap :=
  {[ py "all" := list_to_map (reverse
       [ (py "Neutral", py "normal");
         (py "Positive", py "normal");
         (py "Negative", py "offensive");
         (py "ADULT", py "profanity");
         (py "NOT_ADULT", py "normal");
         (py "no", py "normal");
         (py "yes", py "offensive");
         (py "neutral", py "normal");
         (py "negative", py "offensive");
         (py "positive", py "normal");
         (py "offensive", py "offensive");
         (py "not", py "normal");
         (py "Offensive", py "offensive");
         (py "non-offensive", py "normal");
         (py "Non-offensive", py "normal");
         (py "abusive", py "profanity");
         (py "normal", py "normal");
         (py "hate", py "offensive");
         (py "Bullying", py "offensive");
         (py "non-bullying", py "normal");
         (py "none", py "normal");
         (py "None", py "normal");
         (py "HATE", py "offensive");
         (py "OFFENSIVE", py "offensive");
         (py "NORMAL", py "normal");
         ([], py "normal");
         (py "cyber", py "offensive");
         (py "not cyber", py "normal") ]) ]}.

(** ** The script: internal utilities *)

Section Script.

Context (rt : runtime).

Definition find_files (input_dir : pystr) : list pystr :=
  let patterns :=
    [py "**/*.csv"; py "**/*.tsv"; py "**/*.json";
     py "**/*.xlsx"; py "**/*.xls"; py "**/*.parquet"] in
  sorted (concat ((fun p => glob_glob rt (OsPath.join input_dir p)) <$> patterns)).

(** The loop of [safe_read_table] over the encodings: the first read that
    succeeds is returned, a failed one is dropped by [except: continue]. *)
Fixpoint read_csv_encodings (path sep : pystr) (encs : list pystr)
  : option DataFrame :=
  match encs with
  | [] => None
  | enc :: rest =>
      match pd_read_csv rt path sep enc with
      | inr df => Some df
      | inl _ => read_csv_encodings path sep rest
      end
  end.

(** What a bare [raise] does where no exception is being handled. *)
Definition bare_raise : exn :=
  Exn RuntimeError (py "No active exception to reraise").

Definition safe_read_table (path : pystr) : exn + DataFrame :=
  let ext := str_lower rt (snd (OsPath.splitext path)) in
  if str_in ext [py ".csv"; py ".tsv"] then
    let sep := if bool_decide (ext = py ".tsv") then [0x09%N] else py "," in
    match read_csv_encodings path sep
            [py "utf-8"; py "utf-8-sig"; py "latin1"; py "cp1256"] with
    | Some df => inr df
    | None => inl bare_raise
    end
  else if str_in ext [py ".json"] then
    match pd_read_json rt path true with
    | inr df => inr df
    | inl e => if is_ValueError e then pd_read_json rt path false else inl e
    end
  else if str_in ext [py ".xlsx"; py ".xls"] then pd_read_excel rt path
  else if str_in ext [py ".parquet"] then pd_read_parquet rt path
  else inl (Exn ValueError (py "Unsupported file type: " ++ path)).

(** [{c.lower(): c for c in df.columns}]: a later column replaces an
    earlier one with the same lowered name. *)
Definition lowered_columns (df : DataFrame) : gmap pystr pystr :=
  foldl (fun m c => <[str_lower rt (col_name c) := col_name c]> m) ∅ (df_columns df).

(** [for name in names: if name in cols: found = cols[name]; break] *)
Fixpoint first_preferred (cols : gmap pystr pystr) (names : list pystr)
  : option pystr :=
  match names with
  | [] => None
  | name :: rest =>
      match cols !! name with
      | Some c => Some c
      | None => first_preferred cols rest
      end
  end.

Definition canonicalize_columns (df : DataFrame)
  : option pystr * option pystr * option pystr :=
  let prefer_text_fields :=
    [py "text"; py "content"; py "tweet"; py "sentence"; py "comment"; py "post"] in
  let prefer_label_fields :=
    [py "label"; py "target"; py "class"; py "annotation"; py "y"] in
  let cols := lowered_columns df in
  let text_col :=
    match first_preferred cols prefer_text_fields with
    | Some c => Some c
    | None => col_name <$> head (filter (fun c => col_string_dtype c = true) (df_columns df))
    end in
  let label_col := first_preferred cols prefer_label_fields in
  let id_col :=
    first_preferred cols [py "id"; py "uid"; py "post_id"; py "tweet_id"; py "idx"] in
  (text_col, label_col, id_col).

(** The substitution steps of [arabic_normalize] that follow the NFKC
    step, one definition per line of the source. *)
Definition remove_tatweel (s : pystr) : pystr :=
  filter (fun c => c ≠ 0x640%N) s.

Definition is_alef_variant (c : N) : bool :=
  ((c =? 0x625) || (c =? 0x623) || (c =? 0x622))%N.

Definition fold_alef (s : pystr) : pystr :=
  (fun c => if is_alef_variant c then 0x627%N else c) <$> s.

Definition is_diacritic (c : N) : bool :=
  ((0x64B <=? c) && (c <=? 0x65F) || (c =? 0x670))%N.

Definition remove_diacritics (s : pystr) : pystr :=
  filter (fun c => is_diacritic c = false) s.

Definition fold_alef_maqsura (s : pystr) : pystr :=
  (fun c => if (c =? 0x649)%N then 0x64A%N else c) <$> s.

Definition collapse_whitespace (s : pystr) : pystr := strip (sub_ws false s).

Definition arabic_normalize (text : pyval) : pystr :=
  let text :=
    match text with
    | PyStr s => s
    | PyNone => []
    | PyObj _ => str text
    end in
  let text := unicodedata_normalize_NFKC rt text in
  let text := remove_tatweel text in
  let text := fold_alef text in
  let text := remove_diacritics text in
  let text := fold_alef_maqsura text in
  collapse_whitespace text.

(** [lbl_raw = "" if lbl_raw is None else str(lbl_raw).strip()] *)
Definition trim_label (lbl_raw : pyval) : pystr :=
  match lbl_raw with
  | PyNone => []
  | _ => strip (str lbl_raw)
  end.

Definition map_label_for_row (src : pystr) (lbl_raw : pyval) (label_map : LabelMap)
  : option pystr :=
  let lbl_raw := trim_label lbl_raw in
  let mapped : option pystr :=
    match label_map !! src ≫= (.!! lbl_raw) with
    | Some v => Some v
    | None =>
        match label_map !! py "all" ≫= (.!! lbl_raw) with
        | Some v => Some v
        | None => label_map !! [] ≫= (.!! lbl_raw)
        end
    end in
  let mapped :=
    match mapped with
    | None =>
        if bool_decide (lbl_raw ≠ []) then
          let low := str_lower rt lbl_raw in
          if str_in low [py "0"; py "none"; py "neutral"; py "normal"; py "clean"; py "non"]
          then Some (py "normal")
          else if str_in low [py "1"; py "offensive"; py "offence"; py "abusive";
                              py "hate"; py "abuse"; py "toxic"; py "insult"]
          then Some (py "offensive")
          else if str_in low [py "2"; py "profanity"; py "swear"; py "swear_word";
                              py "vulgar"; py "obscene"]
          then Some (py "profanity")
          else None
        else None
    | Some v => Some v
    end in
  match (match mapped with
         | None => if DROP_UNMAPPED then None else Some DEFAULT_MAP_TARGET
         | Some v => Some v
         end) with
  | None => None
  | Some mapped =>
      let mapped := strip (str_lower rt mapped) in
      if negb (str_in mapped CANONICAL_LABELS) then Some DEFAULT_MAP_TARGET
      else Some mapped
  end.

End Script.

(** ** Frames: the pandas operations of [merge_all] *)

Definition nrows (df : DataFrame) : nat := length (df_index df).

Definition NaN : pyval := PyObj (py "nan").

(** [df[name] = values]: replaces the column of that name or appends one. *)
Fixpoint set_column_in (cols : list Column) (name : pystr) (vals : list pyval)
  : list Column :=
  match cols with
  | [] => [Col name true vals]
  | c :: r =>
      if bool_decide (col_name c = name)
      then Col name true vals :: r
      else c :: set_column_in r name vals
  end.

Definition set_column (df : DataFrame) (name : pystr) (vals : list pyval) : DataFrame :=
  Frame (set_column_in (df_columns df) name vals) (df_index df).

(** [df[name]], the values of the first column of that name. *)
Definition get_column (df : DataFrame) (name : pystr) : list pyval :=
  match filter (fun c => col_name c = name) (df_columns df) with
  | c :: _ => col_values c
  | [] => []
  end.

(** [series.astype(str)] *)
Definition astype_str (vals : list pyval) : list pyval :=
  (fun v => PyStr (str v)) <$> vals.

(** [row[name]] for the row at position [i]. *)
Definition row_get (df : DataFrame) (i : nat) (name : pystr) : pyval :=
  default NaN (get_column df name !! i).

(** A row of the merged data: a dict from column name to value. *)
Abbreviation DataRow := (gmap pystr pyval).

Inductive event :=
  | FoundFiles (n : nat)
  | WarnCouldNotRead (fpath : pystr) (e : exn)
  | WarnNoTextColumn (fpath : pystr)
  | Processed (fpath : pystr) (n : nat)
  | InfoDuplicates (n : nat)
  | InfoNoDuplicates
  | WarnNonCanonical (bad : list pystr)
  | SavedMerged (n : nat)
  | SavedPerSource
  | SavedSummary.

Record Summary := MkSummary {
  summary_rows : nat;
  label_counts : gmap pystr nat;
  files_processed_counts : gmap pystr nat }.

Inductive artifact :=
  | MergedCsv (rows : list DataRow)
  | PerSourceCsv (table : list (pystr * gmap pystr nat * nat))
  | SummaryJson (s : Summary).

(** What a run leaves behind: the lines printed, the files written (path
    and content, in order), and the frame returned or the exception raised. *)
Record outcome := Outcome {
  stdout : list event;
  written : list (pystr * artifact);
  returned : exn + list DataRow }.

(** [series.value_counts()] as a dict. *)
Definition value_counts (l : list pystr) : gmap pystr nat :=
  foldl (fun m x => <[x := S (default 0 (m !! x))]> m) ∅ l.

(** [merged.duplicated(subset=['text']).sum()]: rows whose text occurred in
    an earlier row. *)
Fixpoint duplicated_count (seen texts : list pystr) : nat :=
  match texts with
  | [] => 0
  | t :: r =>
      (if bool_decide (t ∈ seen) then 1 else 0) + duplicated_count (t :: seen) r
  end.

Definition cell (r : DataRow) (col : pystr) : pyval := default NaN (r !! col).

Definition has_column (rows : list DataRow) (col : pystr) : bool :=
  existsb (fun r => bool_decide (is_Some (r !! col))) rows.

Fixpoint insert_by_total (x : pystr * gmap pystr nat * nat)
  (l : list (pystr * gmap pystr nat * nat)) : list (pystr * gmap pystr nat * nat) :=
  match l with
  | [] => [x]
  | y :: r => if Nat.leb (snd y) (snd x) then x :: l else y :: insert_by_total x r
  end.

(** [groupby('source')['label'].value_counts().unstack(fill_value=0)], the
    [total] column and the descending sort on it (pandas leaves the order
    of equal totals to its sort; here they stay in group order). *)
Definition per_source_table (rows : list DataRow)
  : list (pystr * gmap pystr nat * nat) :=
  let sources := sorted (remove_dups ((fun r => str (cell r (py "source"))) <$> rows)) in
  let line src :=
    let labels := (fun r => str (cell r (py "label"))) <$>
                  filter (fun r => str (cell r (py "source")) = src) rows in
    (src, value_counts labels, length labels) in
  foldr insert_by_total [] (line <$> sources).

Section Merge.

Context (rt : runtime).

(** The accumulators of the loop over the files. *)
Record accum := Accum {
  all_rows : list DataRow;
  per_file_counts : gmap pystr nat;
  printed : list event }.

(** [data_row] for the row at position [i] of the prepared frame, or
    [None] when the label mapper drops the row. *)
Definition data_row (label_map : LabelMap) (df : DataFrame)
  (src text_col label_col id_col : pystr) (i : nat) : option DataRow :=
  let raw_text := row_get df i text_col in
  let raw_label := row_get df i label_col in
  match map_label_for_row rt src raw_label label_map with
  | None => None
  | Some mapped =>
      let normalized_text := arabic_normalize rt raw_text in
      let row : DataRow :=
        <[py "label" := PyStr mapped]>
        (<[py "label_orig" := raw_label]>
        (<[py "text" := PyStr normalized_text]>
        (<[py "source" := PyStr src]>
        (<[py "global_id" := PyStr (src ++ py "_" ++ str (row_get df i id_col))]> ∅)))) in
      Some (if KEEP_ALL_COLUMNS
            then foldl (fun d c => <[py "orig__" ++ col_name c := row_get df i (col_name c)]> d)
                       row (df_columns df)
            else row)
  end.

(** The frame after the text, label and id columns were materialised,
    with the names of the label and id columns in use. *)
Definition prepare_frame (df : DataFrame) (text_col : pystr)
  (label_col id_col : option pystr) : DataFrame * pystr * pystr :=
  let df := set_column df text_col (astype_str (get_column df text_col)) in
  let '(df, label_col) :=
    match label_col with
    | Some l => (set_column df l (astype_str (get_column df l)), l)
    | None => (set_column df (py "__no_label__") (replicate (nrows df) (PyStr [])),
               py "__no_label__")
    end in
  let '(df, id_col) :=
    match id_col with
    | Some c => (set_column df c (astype_str (get_column df c)), c)
    | None => (set_column df (py "_auto_idx_") (astype_str (df_index df)),
               py "_auto_idx_")
    end in
  (df, label_col, id_col).

(** The rows one loaded frame contributes ([rows_from_file]). *)
Definition rows_from_frame (label_map : LabelMap) (fname : pystr) (df : DataFrame)
  (text_col : pystr) (label_col id_col : option pystr) : list DataRow :=
  let '(df, label_col, id_col) := prepare_frame df text_col label_col id_col in
  omap (data_row label_map df fname text_col label_col id_col) (seq 0 (nrows df)).

(** One iteration of [for fpath in files]. *)
Definition process_file (label_map : LabelMap) (acc : accum) (fpath : pystr) : accum :=
  match safe_read_table rt fpath with
  | inl e =>
      Accum (all_rows acc) (per_file_counts acc)
            (printed acc ++ [WarnCouldNotRead fpath e])
  | inr df =>
      let fname := fst (OsPath.splitext (OsPath.basename fpath)) in
      match canonicalize_columns rt df with
      | (None, _, _) =>
          Accum (all_rows acc) (per_file_counts acc)
                (printed acc ++ [WarnNoTextColumn fpath])
      | (Some text_col, label_col, id_col) =>
          let rows_from_file :=
            rows_from_frame label_map fname df text_col label_col id_col in
          Accum (all_rows acc ++ rows_from_file)
                (<[fname := length rows_from_file]> (per_file_counts acc))
                (printed acc ++ [Processed fpath (length rows_from_file)])
      end
  end.

Definition merge_loop (label_map : LabelMap) (files : list pystr) : accum :=
  foldl (process_file label_map)
        (Accum [] ∅ [FoundFiles (length files)]) files.

Definition row_label (r : DataRow) : pystr := str (cell r (py "label")).

Definition merge_all : outcome :=
  let label_map := get_label_map in
  let files := find_files rt INPUT_DIR in
  let acc := merge_loop label_map files in
  if Nat.eqb (length (all_rows acc)) 0 then
    Outcome (printed acc) []
      (inl (Exn RuntimeError (py "No rows collected. Check INPUT_DIR and LABEL_MAP.")))
  else
    let merged := all_rows acc in
    let duplicates_count :=
      duplicated_count [] ((fun r => str (cell r (py "text"))) <$> merged) in
    let out1 :=
      printed acc ++
      [if Nat.ltb 0 duplicates_count then InfoDuplicates duplicates_count
       else InfoNoDuplicates] in
    let bad :=
      filter (fun l => l ∉ CANONICAL_LABELS) (remove_dups (row_label <$> merged)) in
    let '(merged, out2) :=
      match bad with
      | [] => (merged, out1)
      | _ =>
          ((fun r => if str_in (row_label r) CANONICAL_LABELS then r
                     else <[py "label" := PyStr DEFAULT_MAP_TARGET]> r) <$> merged,
           out1 ++ [WarnNonCanonical bad])
      end in
    let merged :=
      if negb (has_column merged ORIGINAL_TEXT_COL)
      then (fun r => <[ORIGINAL_TEXT_COL := cell r (py "text")]> r) <$> merged
      else merged in
    let w1 := [(OUTPUT_PATH, MergedCsv merged)] in
    let out3 := out2 ++ [SavedMerged (length merged)] in
    let w2 := w1 ++ [(PER_SOURCE_DIST_OUT, PerSourceCsv (per_source_table merged))] in
    let out4 := out3 ++ [SavedPerSource] in
    let summary :=
      MkSummary (length merged) (value_counts (row_label <$> merged))
                (per_file_counts acc) in
    let w3 := w2 ++ [(SUMMARY_JSON_OUT, SummaryJson summary)] in
    Outcome (out4 ++ [SavedSummary]) w3 (inr merged).

End Merge.

(** ** A concrete runtime for evaluation

    [unicodedata.normalize('NFKC', s)] computed by the Unicode algorithm
    (compatibility decomposition, canonical ordering, canonical
    composition) over an excerpt of the Unicode character database: Basic
    Latin, U+0301 and the letters that decompose into a Basic Latin letter
    and U+0301, the Arabic letters and marks U+0621..U+065F and U+0670,
    and the white space characters.  It agrees with the library on strings
    made of these code points; the concrete evaluations below use no
    others. *)

Module Unicode.

Local Open Scope N_scope.

(** Decomposition mappings: code point, compatibility tag, mapping. *)
Definition decomposition : list (N * bool * list N) :=
  ((fun p : N * N => (fst p, false, [snd p; 0x301])) <$>
     [(0xC1, 0x41); (0xC9, 0x45); (0xCD, 0x49); (0xD3, 0x4F); (0xDA, 0x55);
      (0xDD, 0x59); (0xE1, 0x61); (0xE9, 0x65); (0xED, 0x69); (0xF3, 0x6F);
      (0xFA, 0x75); (0xFD, 0x79); (0x106, 0x43); (0x107, 0x63); (0x139, 0x4C);
      (0x13A, 0x6C); (0x143, 0x4E); (0x144, 0x6E); (0x154, 0x52); (0x155, 0x72);
      (0x15A, 0x53); (0x15B, 0x73); (0x179, 0x5A); (0x17A, 0x7A); (0x1F4, 0x47);
      (0x1F5, 0x67); (0x1E30, 0x4B); (0x1E31, 0x6B); (0x1E3E, 0x4D);
      (0x1E3F, 0x6D); (0x1E54, 0x50); (0x1E55, 0x70); (0x1E82, 0x57);
      (0x1E83, 0x77)]) ++
  [ (0x622, false, [0x627; 0x653]); (0x623, false, [0x627; 0x654]);
    (0x624, false, [0x648; 0x654]); (0x625, false, [0x627; 0x655]);
    (0x626, false, [0x64A; 0x654]);
    (0x2000, false, [0x2002]); (0x2001, false, [0x2003]) ] ++
  ((fun c : N => (c, true, [0x20])) <$>
     [0xA0; 0x2002; 0x2003; 0x2004; 0x2005; 0x2006; 0x2007; 0x2008; 0x2009;
      0x200A; 0x202F; 0x205F; 0x3000]).

(** Canonical combining classes other than 0. *)
Definition combining_class : list (N * N) :=
  [ (0x301, 230); (0x64B, 27); (0x64C, 28); (0x64D, 29); (0x64E, 30);
    (0x64F, 31); (0x650, 32); (0x651, 33); (0x652, 34); (0x653, 230);
    (0x654, 230); (0x655, 220); (0x656, 220); (0x657, 230); (0x658, 230);
    (0x659, 230); (0x65A, 230); (0x65B, 230); (0x65C, 220); (0x65D, 230);
    (0x65E, 230); (0x65F, 220); (0x670, 35) ].

Definition ccc (c : N) : N :=
  match filter (fun p => fst p = c) combining_class with
  | p :: _ => snd p
  | [] => 0
  end.

Definition decompose1 (c : N) : list N :=
  match filter (fun e => fst (fst e) = c) decomposition with
  | e :: _ => snd e
  | [] => [c]
  end.

(** Full decomposition: the mappings applied until nothing changes (the
    mappings of the database nest only a few levels deep). *)
Definition decompose (s : pystr) : pystr :=
  Nat.iter 4%nat (fun t => t ≫= decompose1) s.

(** Canonical ordering: a mark moves left past marks of a higher class. *)
Fixpoint insert_mark (c : N) (before : list N) : list N :=
  match before with
  | p :: r =>
      if ((0 <? ccc c) && (ccc c <? ccc p))%N
      then p :: insert_mark c r
      else c :: before
  | [] => [c]
  end.

Definition reorder (s : pystr) : pystr :=
  reverse (foldl (fun acc c => insert_mark c acc) [] s).

(** The primary composite of a starter and a following character. *)
Definition primary_composite (l c : N) : option N :=
  match filter (fun e => snd (fst e) = false ∧ snd e = [l; c]) decomposition with
  | e :: _ => Some (fst (fst e))
  | [] => None
  end.

(** Canonical composition.  [done] holds the finished output reversed,
    [starter] the last starter and [pending] the marks after it, reversed. *)
Fixpoint compose_from (done : list N) (starter : option N) (pending : list N)
  (s : pystr) : pystr :=
  match s with
  | [] =>
      reverse (pending ++ match starter with Some l => l :: done | None => done end)
  | c :: r =>
      match starter with
      | None =>
          if (ccc c =? 0)%N then compose_from done (Some c) [] r
          else compose_from (c :: done) None [] r
      | Some l =>
          let blocked :=
            match pending with
            | [] => false
            | p :: _ => (ccc c <=? ccc p)%N
            end in
          match (if blocked then None else primary_composite l c) with
          | Some composite => compose_from done (Some composite) pending r
          | None =>
              if (ccc c =? 0)%N
              then compose_from (pending ++ l :: done) (Some c) [] r
              else compose_from done starter (c :: pending) r
          end
      end
  end.

Definition normalize_NFKC (s : pystr) : pystr :=
  compose_from [] None [] (reorder (decompose s)).

(** [str.lower] on strings without cased characters beyond Basic Latin. *)
Definition lower (s : pystr) : pystr :=
  (fun c => if (0x41 <=? c)%N && (c <=? 0x5A)%N then (c + 0x20)%N else c) <$> s.

End Unicode.

(** A file system given by the paths [glob] finds for the csv pattern
    under [All_datasets/] and what reading each of them gives, whatever
    the encoding or reader. *)
Definition runtime_of (files : list (pystr * (exn + DataFrame))) : runtime :=
  let read path :=
    match filter (fun f => fst f = path) files with
    | f :: _ => snd f
    | [] => inl (Exn (OtherException (py "FileNotFoundError") false) path)
    end in
  Runtime Unicode.normalize_NFKC Unicode.lower
    (fun pattern =>
       if bool_decide (pattern = py "All_datasets/**/*.csv")
       then fst <$> files else [])
    (fun path _ _ => read path) (fun path _ => read path) read read.

(** ** Derived views of a run, used to state the properties *)

Section Views.

Context (rt : runtime).

(** The stem [merge_all] uses as the source name of a file. *)
Definition stem (fpath : pystr) : pystr :=
  fst (OsPath.splitext (OsPath.basename fpath)).

(** A file the loop does not skip: it loads and has a text column. *)
Definition loaded (fpath : pystr)
  : option (DataFrame * pystr * option pystr * option pystr) :=
  match safe_read_table rt fpath with
  | inl _ => None
  | inr df =>
      match canonicalize_columns rt df with
      | (None, _, _) => None
      | (Some text_col, label_col, id_col) => Some (df, text_col, label_col, id_col)
      end
  end.

(** The rows a file contributes; none when it is skipped. *)
Definition file_rows (label_map : LabelMap) (fpath : pystr) : list DataRow :=
  match loaded fpath with
  | None => []
  | Some (df, text_col, label_col, id_col) =>
      rows_from_frame rt label_map (stem fpath) df text_col label_col id_col
  end.

(** The per-file row ids of a file that is not skipped: the values of its
    id column or, without one, its index labels, as strings. *)
Definition per_file_ids (fpath : pystr) : option (list pystr) :=
  match loaded fpath with
  | None => None
  | Some (df, text_col, label_col, id_col) =>
      let '(df', _, id_col') := prepare_frame df text_col label_col id_col in
      Some ((fun i => str (row_get df' i id_col')) <$> seq 0 (nrows df'))
  end.

(** The pairs of stem and per-file id of a file's rows before any is
    dropped. *)
Definition file_pairs (f : pystr) : list (pystr * pystr) :=
  match per_file_ids f with
  | Some ids => (fun id => (stem f, id)) <$> ids
  | None => []
  end.

End Views.

Definition global_id (r : DataRow) : pystr := str (cell r (py "global_id")).

Definition run_summary (o : outcome) : option Summary :=
  match omap (fun w => match snd w with SummaryJson s => Some s | _ => None end)
             (written o) with
  | s :: _ => Some s
  | [] => None
  end.

(** The global id of a stem and a per-file id, as [data_row] builds it. *)
Definition make_global_id (p : pystr * pystr) : pystr :=
  fst p ++ py "_" ++ snd p.

(** The frame a run returned, empty when it raised. *)
Definition merged_rows (o : outcome) : list DataRow :=
  match returned o with
  | inr rows => rows
  | inl _ => []
  end.

(** ** Predicates on strings used by the properties *)

(** Every white space character of [s] is a space and no two are adjacent;
    [prev] tells that a white space character precedes [s]. *)
Fixpoint single_spaced (prev : bool) (s : pystr) : bool :=
  match s with
  | [] => true
  | c :: r =>
      if isspace c
      then (c =? 0x20)%N && negb prev && single_spaced true r
      else single_spaced false r
  end.

(** A character none of the substitution steps touches. *)
Definition folded (c : N) : bool :=
  negb (c =? 0x640)%N && negb (is_alef_variant c) && negb (is_diacritic c)
  && negb (c =? 0x649)%N.

(** The steps of [arabic_normalize] after the NFKC step. *)
Definition fold_steps (s : pystr) : pystr :=
  collapse_whitespace
    (fold_alef_maqsura (remove_diacritics (fold_alef (remove_tatweel s)))).

(** The last lines of [map_label_for_row]: lower, strip, membership test. *)
Definition final_check (rt : runtime) (mapped : pystr) : pystr :=
  let mapped := strip (str_lower rt mapped) in
  if negb (str_in mapped CANONICAL_LABELS) then DEFAULT_MAP_TARGET else mapped.

(** ** Concrete directories *)

(** A frame with one text column and the default index. *)
Definition text_frame (texts : list pystr) : DataFrame :=
  Frame [Col (py "text") true (PyStr <$> texts)] (RangeIndex (length texts)).

(** A frame with a text and a label column and the default index. *)
Definition labelled_frame (rows : list (pystr * pystr)) : DataFrame :=
  Frame [Col (py "text") true (PyStr ∘ fst <$> rows);
         Col (py "label") true (PyStr ∘ snd <$> rows)]
        (RangeIndex (length rows)).

(** What [pd.read_csv] raises on a file without content. *)
Definition EmptyDataError : exn :=
  Exn (OtherException (py "EmptyDataError") true) (py "No columns to parse from file").

Definition rt_empty_dir : runtime := runtime_of [].

(** Two files of the same name in two subdirectories. *)
Definition rt_same_stem : runtime :=
  runtime_of [ (py "All_datasets/x/a.csv", inr (text_frame [py "hi"]));
               (py "All_datasets/y/a.csv", inr (text_frame [py "there"])) ].

Definition rt_two_files : runtime :=
  runtime_of [ (py "All_datasets/A.csv", inr (labelled_frame [(py "hello world", py "0")]));
               (py "All_datasets/B.csv", inr (labelled_frame [(py "bad word", py "swear")])) ].

(** One file that cannot be read and one without a text column: its only
    column has no preferred name and holds a missing value. *)
Definition rt_all_skipped : runtime :=
  runtime_of [ (py "All_datasets/empty.csv", inl EmptyDataError);
               (py "All_datasets/blank.csv",
                inr (Frame [Col (py "n") false [NaN]] (RangeIndex 1))) ].

(** A frame with a text and an id column. *)
Definition identified_frame (rows : list (pystr * pystr)) : DataFrame :=
  Frame [Col (py "text") true (PyStr ∘ fst <$> rows);
         Col (py "id") true (PyStr ∘ snd <$> rows)]
        (RangeIndex (length rows)).

(** Two files of different names whose ids are distinct, one id holding an
    underscore. *)
Definition rt_underscore_ids : runtime :=
  runtime_of [ (py "All_datasets/a.csv", inr (identified_frame [(py "hi", py "b_c")]));
               (py "All_datasets/a_b.csv", inr (identified_frame [(py "there", py "c")])) ].

(** One file that cannot be read next to a good one. *)
Definition rt_one_unreadable : runtime :=
  runtime_of [ (py "All_datasets/b.csv", inr (text_frame [py "hi"]));
               (py "All_datasets/empty.csv", inl EmptyDataError) ].

Definition rt_skipped_and_good : runtime :=
  runtime_of [ (py "All_datasets/bad.csv", inl EmptyDataError);
               (py "All_datasets/good.csv", inr (text_frame [py "hi"])) ].

(** One file whose only text has a space on each side. *)
Definition rt_padded_text : runtime :=
  runtime_of [ (py "All_datasets/a.csv", inr (text_frame [py " a "])) ].

Definition label_map_with_override : LabelMap :=
  {[ py "D1" := {[ py "0" := py "offensive" ]};
     py "all" := {[ py "0" := py "normal" ]} ]}.

(** ** Names used by the further properties *)

(** The default preference lists of [canonicalize_columns]. *)
Definition prefer_text_fields : list pystr :=
  [py "text"; py "content"; py "tweet"; py "sentence"; py "comment"; py "post"].

Definition prefer_label_fields : list pystr :=
  [py "label"; py "target"; py "class"; py "annotation"; py "y"].

Definition id_candidates : list pystr :=
  [py "id"; py "uid"; py "post_id"; py "tweet_id"; py "idx"].

(** The encodings [safe_read_table] tries on a delimited file, in order. *)
Definition csv_encodings : list pystr :=
  [py "utf-8"; py "utf-8-sig"; py "latin1"; py "cp1256"].

(** The three keyword sets of [map_label_for_row]. *)
Definition normal_like : list pystr :=
  [py "0"; py "none"; py "neutral"; py "normal"; py "clean"; py "non"].

Definition offensive_like : list pystr :=
  [py "1"; py "offensive"; py "offence"; py "abusive"; py "hate"; py "abuse";
   py "toxic"; py "insult"].

Definition profanity_like : list pystr :=
  [py "2"; py "profanity"; py "swear"; py "swear_word"; py "vulgar"; py "obscene"].

(** The patterns [find_files] hands to [glob]. *)
Definition default_patterns : list pystr :=
  [py "**/*.csv"; py "**/*.tsv"; py "**/*.json";
   py "**/*.xlsx"; py "**/*.xls"; py "**/*.parquet"].

(** [merged[ORIGINAL_TEXT_COL] = merged['text']] on one row. *)
Definition with_original_text (r : DataRow) : DataRow :=
  <[ORIGINAL_TEXT_COL := cell r (py "text")]> r.

(** The number of rows of a file the loop does not skip, 0 for a skipped
    one. *)
Definition file_nrows (rt : runtime) (fpath : pystr) : nat :=
  match loaded rt fpath with
  | Some (df, _, _, _) => nrows df
  | None => 0
  end.

(** The line the loop prints for a file. *)
Definition file_event (rt : runtime) (label_map : LabelMap) (fpath : pystr) : event :=
  match safe_read_table rt fpath with
  | inl e => WarnCouldNotRead fpath e
  | inr df =>
      match loaded rt fpath with
      | None => WarnNoTextColumn fpath
      | Some _ => Processed fpath (length (file_rows rt label_map fpath))
      end
  end.

(** What [pd.read_csv] raises on bytes that the encoding cannot decode. *)
Definition UnicodeDecodeError : exn :=
  Exn (OtherException (py "UnicodeDecodeError") true) (py "invalid start byte").

(** One delimited file that only the legacy encodings read, each giving
    its own text. *)
Definition rt_legacy_encoding : runtime :=
  Runtime Unicode.normalize_NFKC Unicode.lower
    (fun pattern =>
       if bool_decide (pattern = py "All_datasets/**/*.csv")
       then [py "All_datasets/old.csv"] else [])
    (fun path sep enc =>
       if bool_decide (enc = py "latin1") then inr (text_frame [py "latin"])
       else if bool_decide (enc = py "cp1256") then inr (text_frame [py "arabic"])
       else inl UnicodeDecodeError)
    (fun path lines =>
       if lines then inl (Exn ValueError (py "Expected object or value"))
       else inr (text_frame [py "document"]))
    (fun path => inl (Exn (OtherException (py "ImportError") false) (py "openpyxl")))
    (fun path => inl (Exn (OtherException (py "ImportError") false) (py "pyarrow"))).

(** A frame whose column names differ from the preferred ones by case. *)
Definition mixed_case_frame : DataFrame :=
  Frame [ Col (py "Tweet") true [PyStr (py "t")];
          Col (py "TEXT") true [PyStr (py "a")];
          Col (py "Text") true [PyStr (py "b")];
          Col (py "Class") true [PyStr (py "1")];
          Col (py "n") false [NaN] ]
        (RangeIndex 1).

(** A label mapping with the reserved empty-string table only. *)
Definition label_map_reserved : LabelMap :=
  {[ [] := {[ py "x" := py " Profanity " ]} ]}.

(** The frame of a file the loop does not skip, after its text, label and
    id columns were materialised, with the names of these columns. *)
Definition prepared (rt : runtime) (fpath : pystr)
  : option (DataFrame * pystr * pystr * pystr) :=
  match loaded rt fpath with
  | None => None
  | Some (df, text_col, label_col, id_col) =>
      let '(df', label_col', id_col') := prepare_frame df text_col label_col id_col in
      Some (df', text_col, label_col', id_col')
  end.

(** The six columns every merged row has. *)
Definition fixed_columns : list pystr :=
  [py "global_id"; py "source"; py "text"; py "label_orig"; py "label";
   ORIGINAL_TEXT_COL].

(** The row at position [i] of the frame a run returned. *)
Definition nth_row (o : outcome) (i : nat) : DataRow :=
  default ∅ (merged_rows o !! i).

(** How many elements of [l] equal [x]. *)
Definition count_eq {A} `{EqDecision A} (x : A) (l : list A) : nat :=
  length (filter (fun y => y = x) l).

(** Two files with the same text, one of them with two rows. *)
Definition rt_repeated_text : runtime :=
  runtime_of [ (py "All_datasets/A.csv",
                inr (labelled_frame [(py "hello", py "0"); (py "hello", py "hate")]));
               (py "All_datasets/B.csv", inr (labelled_frame [(py "hello", py "")])) ].

(** * Properties *)

(** ** Whitespace: [re.sub(r'\s+', ' ', s)] and [strip] *)

Lemma sub_ws_single_spaced b s : single_spaced b (sub_ws b s) = true.
Proof.
  revert b; induction s as [|c r IH]; intros b; simpl; [done|].
  destruct (isspace c) eqn:Hc.
  - destruct b; [apply IH|]. simpl. by rewrite IH.
  - simpl. rewrite Hc. apply IH.
Qed.

Lemma single_spaced_sub_ws b s : single_spaced b s = true → sub_ws b s = s.
Proof.
  revert b; induction s as [|c r IH]; intros b; simpl; [done|].
  destruct (isspace c) eqn:Hc.
  - intros [[Hsp Hb%negb_true_iff]%andb_prop Hr]%andb_prop.
    apply N.eqb_eq in Hsp. subst b c. by rewrite IH.
  - intros Hr. by rewrite IH.
Qed.

Lemma single_spaced_weaken s : single_spaced true s = true → single_spaced false s = true.
Proof.
  destruct s as [|c r]; simpl; [done|].
  destruct (isspace c); [|done]. by rewrite andb_false_r.
Qed.

Lemma single_spaced_lstrip s : single_spaced false s = true → single_spaced false (lstrip s) = true.
Proof.
  induction s as [|c r IH]; simpl; [done|].
  destruct (isspace c) eqn:Hc; simpl.
  - intros [_ Hr]%andb_prop. by apply IH, single_spaced_weaken.
  - by rewrite Hc.
Qed.

Lemma single_spaced_rstrip b s : single_spaced b s = true → single_spaced b (rstrip s) = true.
Proof.
  revert b; induction s as [|c r IH]; intros b; simpl; [done|].
  destruct (isspace c) eqn:Hc.
  - intros [Hh Hr]%andb_prop. specialize (IH _ Hr).
    destruct (rstrip r) as [|x r']; [done|].
    simpl in *. rewrite Hc, Hh. exact IH.
  - intros Hr. specialize (IH _ Hr).
    destruct (rstrip r) as [|x r']; simpl; rewrite Hc; [done|exact IH].
Qed.

Lemma head_lstrip s c : head (lstrip s) = Some c → isspace c = false.
Proof.
  induction s as [|x r IH]; simpl; [done|].
  destruct (isspace x) eqn:Hx; [exact IH|]. simpl. congruence.
Qed.

Lemma last_rstrip s c : last (rstrip s) = Some c → isspace c = false.
Proof.
  induction s as [|x r IH]; simpl; [done|].
  destruct (rstrip r) as [|y r'] eqn:Hr.
  - destruct (isspace x) eqn:Hx; simpl; congruence.
  - intros H. apply IH. by rewrite last_cons_cons in H.
Qed.

Lemma last_lstrip s c : last (lstrip s) = Some c → last s = Some c.
Proof.
  induction s as [|x r IH]; simpl; [done|].
  destruct (isspace x); [|done].
  intros H. specialize (IH H). destruct r; [done|]. by rewrite last_cons_cons.
Qed.

Lemma lstrip_fix s : (∀ c, head s = Some c → isspace c = false) → lstrip s = s.
Proof. destruct s as [|x r]; simpl; [done|]. intros H. by rewrite (H x). Qed.

Lemma rstrip_fix s : (∀ c, last s = Some c → isspace c = false) → rstrip s = s.
Proof.
  induction s as [|x r IH]; simpl; [done|]. intros H.
  destruct r as [|y r'].
  - simpl. by rewrite (H x).
  - rewrite IH; [done|]. intros c Hc. apply H. by rewrite last_cons_cons.
Qed.

Lemma head_strip s c : head (strip s) = Some c → isspace c = false.
Proof. apply head_lstrip. Qed.

Lemma last_strip s c : last (strip s) = Some c → isspace c = false.
Proof. intros H. by apply last_lstrip, last_rstrip in H. Qed.

Lemma strip_fix s :
  (∀ c, head s = Some c → isspace c = false) →
  (∀ c, last s = Some c → isspace c = false) → strip s = s.
Proof. intros Hh Hl. unfold strip. rewrite (rstrip_fix s Hl). by apply lstrip_fix. Qed.

Lemma lstrip_suffix s : lstrip s `suffix_of` s.
Proof.
  induction s as [|x r IH]; simpl; [done|].
  destruct (isspace x); [by apply suffix_cons_r|done].
Qed.

Lemma rstrip_prefix s : rstrip s `prefix_of` s.
Proof.
  induction s as [|x r IH]; simpl; [done|].
  destruct (rstrip r) as [|y r'].
  - destruct (isspace x); [apply prefix_nil|]. by apply prefix_cons, prefix_nil.
  - by apply prefix_cons.
Qed.

Lemma elem_of_strip c s : c ∈ strip s → c ∈ s.
Proof.
  intros H. destruct (lstrip_suffix (rstrip s)) as [k Hk].
  destruct (rstrip_prefix s) as [k' Hk'].
  rewrite Hk'. apply elem_of_app; left. rewrite Hk. apply elem_of_app; by right.
Qed.

Lemma elem_of_sub_ws c b s : c ∈ sub_ws b s → c = 0x20%N ∨ c ∈ s.
Proof.
  revert b; induction s as [|x r IH]; intros b; simpl; [by right|].
  destruct (isspace x).
  - destruct b.
    + intros [?|?]%IH; [by left|right; by constructor].
    + intros [->|[?|?]%IH]%elem_of_cons; [by left|by left|right; by constructor].
  - intros [->|[?|?]%IH]%elem_of_cons; [right; by constructor|by left|right; by constructor].
Qed.

(** ** The text normalizer *)

Lemma arabic_normalize_fold_steps rt v :
  ∃ s, arabic_normalize rt v = fold_steps s.
Proof. by eexists. Qed.

Lemma folded_space : folded 0x20%N = true.
Proof. reflexivity. Qed.

Lemma folded_spec c :
  folded c = true ↔
  c ≠ 0x640%N ∧ is_alef_variant c = false ∧ is_diacritic c = false ∧ c ≠ 0x649%N.
Proof.
  unfold folded. rewrite !andb_true_iff, !negb_true_iff, !N.eqb_neq. tauto.
Qed.

Lemma is_diacritic_spec c :
  is_diacritic c = false ↔ ¬ (0x64B ≤ c ∧ c ≤ 0x65F)%N ∧ c ≠ 0x670%N.
Proof.
  unfold is_diacritic.
  rewrite orb_false_iff, andb_false_iff, !N.leb_gt, N.eqb_neq. lia.
Qed.

Lemma letter_steps_folded s :
  Forall (fun c => folded c = true)
    (fold_alef_maqsura (remove_diacritics (fold_alef (remove_tatweel s)))).
Proof.
  apply Forall_forall. intros c.
  unfold fold_alef_maqsura, remove_diacritics, fold_alef, remove_tatweel.
  intros (y & -> & [Hd (x & -> & [Hx _]%list_elem_of_filter)%list_elem_of_fmap
                   ]%list_elem_of_filter)%list_elem_of_fmap.
  destruct (is_alef_variant x) eqn:Ha; [reflexivity|].
  destruct (N.eqb_spec x 0x649) as [->|Hm]; [reflexivity|].
  by apply folded_spec.
Qed.

Lemma fold_steps_folded s : Forall (fun c => folded c = true) (fold_steps s).
Proof.
  apply Forall_forall. intros c Hc%elem_of_strip.
  apply elem_of_sub_ws in Hc as [->|Hc]; [reflexivity|].
  by eapply Forall_forall in Hc; [|apply letter_steps_folded].
Qed.

Lemma letter_steps_fix s :
  Forall (fun c => folded c = true) s →
  fold_alef_maqsura (remove_diacritics (fold_alef (remove_tatweel s))) = s.
Proof.
  unfold fold_alef_maqsura, remove_diacritics, fold_alef, remove_tatweel.
  induction 1 as [|c r Hc _ IH]; [done|].
  rewrite filter_cons.
  apply folded_spec in Hc as (H1 & H2 & H3 & H4%N.eqb_neq).
  rewrite decide_True by done. rewrite fmap_cons, H2, filter_cons.
  rewrite decide_True by done. rewrite fmap_cons, H4. by rewrite IH.
Qed.

Lemma collapse_whitespace_fix s :
  single_spaced false s = true →
  (∀ c, head s = Some c → isspace c = false) →
  (∀ c, last s = Some c → isspace c = false) →
  collapse_whitespace s = s.
Proof.
  intros Hs Hh Hl. unfold collapse_whitespace.
  rewrite single_spaced_sub_ws by done. by apply strip_fix.
Qed.

Lemma collapse_whitespace_single_spaced s :
  single_spaced false (collapse_whitespace s) = true.
Proof.
  unfold collapse_whitespace, strip.
  apply single_spaced_lstrip, single_spaced_rstrip, sub_ws_single_spaced.
Qed.

(** The steps after NFKC leave their own output unchanged. *)
Lemma fold_steps_idempotent s : fold_steps (fold_steps s) = fold_steps s.
Proof.
  unfold fold_steps at 1.
  rewrite letter_steps_fix by apply fold_steps_folded.
  unfold fold_steps. apply collapse_whitespace_fix.
  - apply collapse_whitespace_single_spaced.
  - apply head_strip.
  - apply last_strip.
Qed.

Lemma single_spaced_adjacent b l1 x y l2 :
  single_spaced b (l1 ++ x :: y :: l2) = true →
  ¬ (isspace x = true ∧ isspace y = true).
Proof.
  revert b; induction l1 as [|c r IH]; intros b; simpl.
  - intros H [Hx Hy]. rewrite Hx, Hy in H. simpl in H.
    by rewrite !andb_false_r in H.
  - destruct (isspace c); [intros [_ H]%andb_prop|intros H]; by eapply IH.
Qed.

Lemma single_spaced_space b s c :
  single_spaced b s = true → c ∈ s → isspace c = true → c = 0x20%N.
Proof.
  revert b; induction s as [|x r IH]; intros b Hs Hc Hw; [by apply elem_of_nil in Hc|].
  simpl in Hs. apply elem_of_cons in Hc as [->|Hc].
  - rewrite Hw in Hs. apply andb_prop in Hs as [[Hx _]%andb_prop _]. by apply N.eqb_eq.
  - destruct (isspace x); [apply andb_prop in Hs as [_ Hs]|]; by eapply IH.
Qed.

(** C10: whatever the input value, the result of [arabic_normalize] has no
    tatweel (U+0640), no character of the diacritic ranges U+064B..U+065F
    and U+0670, no alef maqsura (U+0649), no white space at either end, no
    two adjacent white space characters, and no white space character other
    than the space. *)
Theorem arabic_normalize_output_invariants (rt : runtime) (v : pyval) :
  let out := arabic_normalize rt v in
  (0x640%N ∉ out)
  ∧ (∀ c, c ∈ out → ¬ (0x64B ≤ c ∧ c ≤ 0x65F)%N ∧ c ≠ 0x670%N)
  ∧ (0x649%N ∉ out)
  ∧ (∀ c, head out = Some c → isspace c = false)
  ∧ (∀ c, last out = Some c → isspace c = false)
  ∧ (∀ l1 a b l2, out = l1 ++ a :: b :: l2 →
       ¬ (isspace a = true ∧ isspace b = true))
  ∧ (∀ c, c ∈ out → isspace c = true → c = 0x20%N).
Proof.
  intros out. destruct (arabic_normalize_fold_steps rt v) as [s Hs].
  subst out. rewrite Hs. clear Hs.
  pose proof (fold_steps_folded s) as Hf. rewrite Forall_forall in Hf.
  pose proof (collapse_whitespace_single_spaced
    (fold_alef_maqsura (remove_diacritics (fold_alef (remove_tatweel s))))) as Hsp.
  fold (fold_steps s) in Hsp.
  split; [|split; [|split]].
  - intros Hin%Hf%folded_spec. tauto.
  - intros c Hin%Hf%folded_spec. apply is_diacritic_spec. tauto.
  - intros Hin%Hf%folded_spec. tauto.
  - repeat split.
    + apply head_strip.
    + apply last_strip.
    + intros l1 a b l2 Heq. rewrite Heq in Hsp. by eapply single_spaced_adjacent.
    + intros c Hc Hw. by eapply single_spaced_space.
Qed.

(** C5 (as amended): when the NFKC step leaves the result of
    [arabic_normalize] unchanged, normalizing that result again returns it
    unchanged. *)
Theorem arabic_normalize_idempotent_on_nfkc_stable (rt : runtime) (v : pyval) :
  unicodedata_normalize_NFKC rt (arabic_normalize rt v) = arabic_normalize rt v →
  arabic_normalize rt (PyStr (arabic_normalize rt v)) = arabic_normalize rt v.
Proof.
  intros Hstable. destruct (arabic_normalize_fold_steps rt v) as [s Hs].
  unfold arabic_normalize at 1. rewrite Hstable, Hs.
  apply fold_steps_idempotent.
Qed.

(** ** The label mapper *)

Lemma default_target_canonical : DEFAULT_MAP_TARGET ∈ CANONICAL_LABELS.
Proof. by constructor. Qed.

Lemma final_check_canonical rt m : final_check rt m ∈ CANONICAL_LABELS.
Proof.
  unfold final_check, str_in. case_bool_decide; simpl; [done|].
  apply default_target_canonical.
Qed.

Lemma map_label_for_row_final (rt : runtime) (src : pystr) (lbl : pyval)
  (label_map : LabelMap) :
  ∃ m, map_label_for_row rt src lbl label_map = Some (final_check rt m).
Proof.
  unfold map_label_for_row, final_check, DROP_UNMAPPED.
  match goal with
  | |- ∃ m, match match ?o with Some _ => _ | None => _ end with _ => _ end = _ =>
      generalize o
  end.
  intros [m|]; [exists m|exists DEFAULT_MAP_TARGET]; by destruct (negb _).
Qed.

(** C2: for every source, raw label value and label mapping,
    [map_label_for_row] returns a label, and that label is one of normal,
    offensive and profanity. *)
Theorem map_label_for_row_total (rt : runtime) (src : pystr) (lbl_raw : pyval)
  (label_map : LabelMap) :
  ∃ l, map_label_for_row rt src lbl_raw label_map = Some l
       ∧ l ∈ [py "normal"; py "offensive"; py "profanity"].
Proof.
  destruct (map_label_for_row_final rt src lbl_raw label_map) as [m ->].
  eexists; split; [done|]. apply final_check_canonical.
Qed.

Lemma strip_canonical l : l ∈ CANONICAL_LABELS → strip l = l.
Proof.
  unfold CANONICAL_LABELS.
  rewrite !elem_of_cons, elem_of_nil. intros [->|[->|[->|[]]]]; reflexivity.
Qed.

(** C3: when the trimmed raw label has an entry in the table of the row's
    source, [map_label_for_row] returns the canonical label configured
    there, whatever the global table holds; when it has none there but has
    one in the global table (key all), the canonical label configured
    there is returned.  [str.lower] is only required to leave the three
    canonical labels as they are. *)
Theorem map_label_for_row_override (rt : runtime) (src : pystr) (lbl_raw : pyval)
  (label_map : LabelMap) (v : pystr) :
  (∀ l, l ∈ CANONICAL_LABELS → str_lower rt l = l) →
  v ∈ CANONICAL_LABELS →
  label_map !! src ≫= (.!! trim_label lbl_raw) = Some v
  ∨ (label_map !! src ≫= (.!! trim_label lbl_raw) = None
     ∧ label_map !! py "all" ≫= (.!! trim_label lbl_raw) = Some v) →
  map_label_for_row rt src lbl_raw label_map = Some v.
Proof.
  intros Hlow Hv Hentry. unfold map_label_for_row.
  assert (strip (str_lower rt v) = v) as Hfix.
  { rewrite Hlow by done. by apply strip_canonical. }
  destruct Hentry as [-> | [-> ->]]; simpl; rewrite Hfix;
    unfold str_in; by rewrite bool_decide_eq_true_2.
Qed.

(** ** The merge loop *)

Ltac py_neq :=
  let H := fresh in intros H; vm_compute in H; discriminate H.

Section MergeFacts.

Context (rt : runtime).

Lemma process_file_rows lm acc f :
  all_rows (process_file rt lm acc f) = all_rows acc ++ file_rows rt lm f.
Proof.
  unfold process_file, file_rows, loaded, stem.
  destruct (safe_read_table rt f) as [e|df]; [by rewrite app_nil_r|].
  destruct (canonicalize_columns rt df) as [[[t|] l] i]; [done|].
  by rewrite app_nil_r.
Qed.

Lemma foldl_process_file_rows lm files acc :
  all_rows (foldl (process_file rt lm) acc files)
  = all_rows acc ++ concat (file_rows rt lm <$> files).
Proof.
  revert acc; induction files as [|f r IH]; intros acc; simpl.
  - by rewrite app_nil_r.
  - by rewrite IH, process_file_rows, app_assoc.
Qed.

Lemma merge_loop_rows lm files :
  all_rows (merge_loop rt lm files) = concat (file_rows rt lm <$> files).
Proof. unfold merge_loop. by rewrite foldl_process_file_rows. Qed.

Lemma process_file_counts lm acc f k :
  is_Some (per_file_counts (process_file rt lm acc f) !! k)
  ↔ is_Some (per_file_counts acc !! k) ∨ (is_Some (loaded rt f) ∧ stem f = k).
Proof.
  unfold process_file, loaded, stem.
  destruct (safe_read_table rt f) as [e|df].
  { split; [by left|]. intros [?|[[? [=]] _]]; done. }
  destruct (canonicalize_columns rt df) as [[[t|] l] i]; cbn [per_file_counts].
  - rewrite lookup_insert. case_decide as Hk.
    + split; [intros _; right; split; [by eexists|done]|by eexists].
    + split; [by left|]. by intros [?|[_ ?]].
  - split; [by left|]. intros [?|[[? [=]] _]]; done.
Qed.

Lemma foldl_process_file_counts lm files acc k :
  is_Some (per_file_counts (foldl (process_file rt lm) acc files) !! k)
  ↔ is_Some (per_file_counts acc !! k)
    ∨ ∃ f, f ∈ files ∧ is_Some (loaded rt f) ∧ stem f = k.
Proof.
  revert acc; induction files as [|f r IH]; intros acc; simpl.
  - split; [by left|]. intros [?|(f & []%elem_of_nil & _)]; done.
  - rewrite IH, process_file_counts. split.
    + intros [[?|[? ?]]|(g & ? & ? & ?)].
      * by left.
      * right. exists f. split; [by constructor|done].
      * right. exists g. split; [by constructor|done].
    + intros [?|(g & [->|?]%elem_of_cons & ? & ?)].
      * by left; left.
      * by left; right.
      * right. by exists g.
Qed.

Lemma merge_loop_counts lm files k :
  is_Some (per_file_counts (merge_loop rt lm files) !! k)
  ↔ ∃ f, f ∈ files ∧ is_Some (loaded rt f) ∧ stem f = k.
Proof.
  unfold merge_loop. rewrite foldl_process_file_counts. simpl.
  rewrite lookup_empty. split; [intros [[? [=]]|?]; done|by right].
Qed.

End MergeFacts.

(** ** The end of [merge_all] *)

Section MergeAllFacts.

Context (rt : runtime).

Let acc := merge_loop rt get_label_map (find_files rt INPUT_DIR).

Lemma merge_all_no_rows :
  all_rows acc = [] →
  merge_all rt =
    Outcome (printed acc) []
      (inl (Exn RuntimeError (py "No rows collected. Check INPUT_DIR and LABEL_MAP."))).
Proof. unfold merge_all. fold acc. by intros ->. Qed.

Lemma merge_all_some_rows :
  all_rows acc ≠ [] →
  ∃ (T : DataRow → DataRow) out,
    let rows := T <$> all_rows acc in
    merge_all rt =
      Outcome out
        [(OUTPUT_PATH, MergedCsv rows);
         (PER_SOURCE_DIST_OUT, PerSourceCsv (per_source_table rows));
         (SUMMARY_JSON_OUT,
          SummaryJson (MkSummary (length rows) (value_counts (row_label <$> rows))
                                 (per_file_counts acc)))]
        (inr rows)
    ∧ (∀ r k, k ≠ py "label" → k ≠ ORIGINAL_TEXT_COL → T r !! k = r !! k)
    ∧ (has_column (all_rows acc) ORIGINAL_TEXT_COL = false →
       ∀ r, T r !! ORIGINAL_TEXT_COL = Some (cell r (py "text"))).
Proof.
  intros Hne. unfold merge_all, has_column. fold acc.
  destruct (all_rows acc) as [|r0 rs] eqn:Hrows; [done|].
  change (Nat.eqb (length (r0 :: rs)) 0) with false. cbv iota.
  set (merged := r0 :: rs).
  set (validate := fun r : DataRow =>
         if str_in (row_label r) CANONICAL_LABELS then r
         else <[py "label" := PyStr DEFAULT_MAP_TARGET]> r).
  set (keep_text := fun r : DataRow => <[ORIGINAL_TEXT_COL := cell r (py "text")]> r).
  assert (∀ r k, k ≠ py "label" → validate r !! k = r !! k) as Hval.
  { intros r k Hk. unfold validate. destruct (str_in _ _); [done|].
    by rewrite lookup_insert_ne. }
  assert (∀ r k, k ≠ ORIGINAL_TEXT_COL → keep_text r !! k = r !! k) as Hkeep.
  { intros r k Hk. unfold keep_text. by rewrite lookup_insert_ne. }
  assert (∀ r, keep_text r !! ORIGINAL_TEXT_COL = Some (cell r (py "text"))) as Hkt.
  { intros r. unfold keep_text. by rewrite lookup_insert_eq. }
  assert (existsb (fun r => bool_decide (is_Some (r !! ORIGINAL_TEXT_COL)))
            (validate <$> merged)
          = existsb (fun r => bool_decide (is_Some (r !! ORIGINAL_TEXT_COL))) merged)
    as Hcol.
  { generalize merged. intros m. induction m as [|r m IH]; [done|].
    rewrite fmap_cons. cbn [existsb]. rewrite IH, Hval; [done|py_neq]. }
  destruct (filter _ (remove_dups (row_label <$> merged))) as [|b bs].
  - cbv zeta iota beta.
    destruct (existsb _ merged) eqn:Hex; cbn [negb].
    + exists id. eexists. rewrite list_fmap_id. split; [reflexivity|]. done.
    + exists keep_text. eexists. split; [reflexivity|]. split; [|done].
      intros; by apply Hkeep.
  - cbv zeta iota beta. rewrite Hcol.
    destruct (existsb _ merged) eqn:Hex; cbn [negb].
    + exists validate. eexists. split; [reflexivity|]. split; [|done].
      intros; by apply Hval.
    + exists (keep_text ∘ validate). eexists. rewrite list_fmap_compose.
      split; [reflexivity|]. split.
      * intros. simpl. rewrite Hkeep, Hval; done.
      * intros _ r. simpl. rewrite Hkt. unfold cell. rewrite Hval; [done|py_neq].
Qed.

End MergeAllFacts.

(** ** Global ids *)

Lemma foldl_orig_lookup (g : Column → pyval) (cols : list Column) (d : DataRow) k :
  (∀ n, k ≠ py "orig__" ++ n) →
  foldl (fun d c => <[py "orig__" ++ col_name c := g c]> d) d cols !! k = d !! k.
Proof.
  intros Hk. revert d; induction cols as [|c r IH]; intros d; simpl; [done|].
  rewrite IH. apply lookup_insert_ne. intros E. by apply (Hk (col_name c)).
Qed.

Section GlobalIds.

Context (rt : runtime).

Lemma data_row_fixed_key lm df src t l idc i r k :
  data_row rt lm df src t l idc i = Some r →
  (∀ n, k ≠ py "orig__" ++ n) →
  r !! k =
    (<[py "label" := PyStr (default [] (map_label_for_row rt src (row_get df i l) lm))]>
    (<[py "label_orig" := row_get df i l]>
    (<[py "text" := PyStr (arabic_normalize rt (row_get df i t))]>
    (<[py "source" := PyStr src]>
    (<[py "global_id" := PyStr (src ++ py "_" ++ str (row_get df i idc))]>
       (∅ : DataRow)))))) !! k.
Proof.
  unfold data_row. destruct (map_label_for_row rt src (row_get df i l) lm) as [m|];
    [|done].
  intros [= <-] Hk. unfold KEEP_ALL_COLUMNS.
  by rewrite (foldl_orig_lookup (fun c => row_get df i (col_name c))).
Qed.

Lemma data_row_global_id lm df src t l idc i r :
  data_row rt lm df src t l idc i = Some r →
  global_id r = src ++ py "_" ++ str (row_get df i idc).
Proof.
  intros Hr. unfold global_id, cell.
  rewrite (data_row_fixed_key _ _ _ _ _ _ _ _ _ Hr) by (intros n; py_neq).
  do 4 (rewrite lookup_insert_ne by py_neq). by rewrite lookup_insert_eq.
Qed.

Lemma omap_fmap_sublist {A B C} (f : A → option B) (h : B → C) (k : A → C) l :
  (∀ x y, f x = Some y → h y = k x) →
  h <$> omap f l `sublist_of` k <$> l.
Proof.
  intros Hf. induction l as [|x l IH]; simpl; [done|].
  destruct (f x) as [y|] eqn:Hx; simpl.
  - rewrite (Hf _ _ Hx). by apply sublist_skip.
  - by apply sublist_cons.
Qed.

Lemma file_rows_global_ids lm f :
  global_id <$> file_rows rt lm f `sublist_of` make_global_id <$> file_pairs rt f.
Proof.
  unfold file_rows, file_pairs, per_file_ids, rows_from_frame.
  destruct (loaded rt f) as [[[[df t] l] i]|]; [|done].
  destruct (prepare_frame df t l i) as [[df' l'] i'].
  rewrite <- !list_fmap_compose.
  apply omap_fmap_sublist. intros k r Hr. simpl.
  by apply data_row_global_id in Hr.
Qed.

Lemma all_rows_global_ids lm files :
  global_id <$> concat (file_rows rt lm <$> files)
  `sublist_of` make_global_id <$> (files ≫= file_pairs rt).
Proof.
  induction files as [|f r IH]; simpl; [done|].
  rewrite !fmap_app. apply sublist_app; [apply file_rows_global_ids|done].
Qed.

End GlobalIds.

Lemma split_at_first {A} (u : A) l1 l2 r1 r2 :
  u ∉ l1 → u ∉ l2 → l1 ++ u :: r1 = l2 ++ u :: r2 → l1 = l2 ∧ r1 = r2.
Proof.
  revert l2; induction l1 as [|x l1 IH]; intros [|y l2] H1 H2 E; simpl in E.
  - by injection E.
  - injection E as <- _. exfalso. apply H2. by constructor.
  - injection E as -> _. exfalso. apply H1. by constructor.
  - injection E as -> E. apply not_elem_of_cons in H1 as [_ H1].
    apply not_elem_of_cons in H2 as [_ H2].
    destruct (IH _ H1 H2 E) as [-> ->]. done.
Qed.

Lemma make_global_id_inj s1 id1 s2 id2 :
  0x5F%N ∉ id1 → 0x5F%N ∉ id2 →
  make_global_id (s1, id1) = make_global_id (s2, id2) → s1 = s2 ∧ id1 = id2.
Proof.
  unfold make_global_id. simpl. change (py "_") with [0x5F%N]. simpl.
  intros H1 H2 E. apply (f_equal reverse) in E.
  rewrite !reverse_app, !reverse_cons, <- !app_assoc in E. simpl in E.
  apply split_at_first in E as [E1 E2].
  - split; by apply (inj reverse).
  - by rewrite elem_of_reverse.
  - by rewrite elem_of_reverse.
Qed.

(** ** Decimal strings *)

Lemma py_inj s1 s2 : py s1 = py s2 → s1 = s2.
Proof.
  unfold py. intros E.
  rewrite <- (string_of_list_ascii_of_string s1), <- (string_of_list_ascii_of_string s2).
  f_equal. revert E. generalize (list_ascii_of_string s2).
  induction (list_ascii_of_string s1) as [|a l IH]; intros [|b k]; simpl; try done.
  intros [= E1 E2]. f_equal; [|by apply IH].
  by rewrite <- (ascii_N_embedding a), <- (ascii_N_embedding b), E1.
Qed.

Lemma str_of_nat_inj n m : str_of_nat n = str_of_nat m → n = m.
Proof.
  unfold str_of_nat. intros E%py_inj.
  apply (f_equal NilEmpty.uint_of_string) in E. rewrite !NilEmpty.usu in E.
  injection E as E. apply (f_equal Nat.of_uint) in E.
  by rewrite !DecimalNat.Unsigned.of_to in E.
Qed.

Lemma string_of_uint_digits d c :
  c ∈ py (NilEmpty.string_of_uint d) → (0x30 ≤ c ∧ c ≤ 0x39)%N.
Proof.
  induction d; simpl; try (intros []%elem_of_nil);
    (intros [->|?]%elem_of_cons; [vm_compute; split; discriminate|by apply IHd]).
Qed.

Lemma str_of_nat_no_underscore n : 0x5F%N ∉ str_of_nat n.
Proof. intros H%string_of_uint_digits. lia. Qed.

(** ** Frames *)

Lemma get_set_column_in cols name vals :
  match filter (fun c => col_name c = name) (set_column_in cols name vals) with
  | c :: _ => col_values c
  | [] => []
  end = vals.
Proof.
  induction cols as [|c r IH]; simpl.
  - rewrite filter_cons. simpl. by rewrite decide_True.
  - case_bool_decide as Hc.
    + rewrite filter_cons. simpl. by rewrite decide_True.
    + rewrite filter_cons. by rewrite decide_False.
Qed.

Lemma get_set_column df name vals : get_column (set_column df name vals) name = vals.
Proof. apply get_set_column_in. Qed.

Lemma nrows_set_column df name vals : nrows (set_column df name vals) = nrows df.
Proof. done. Qed.

Section Uniqueness.

Context (rt : runtime).

Lemma per_file_ids_loaded f ids : per_file_ids rt f = Some ids → is_Some (loaded rt f).
Proof. unfold per_file_ids. destruct (loaded rt f); [by eexists|done]. Qed.

Lemma elem_of_file_pairs f s id :
  (s, id) ∈ file_pairs rt f →
  s = stem f ∧ ∃ ids, per_file_ids rt f = Some ids ∧ id ∈ ids.
Proof.
  unfold file_pairs. destruct (per_file_ids rt f) as [ids|]; [|by intros []%elem_of_nil].
  intros (x & [= -> ->] & Hx)%list_elem_of_fmap. split; [done|by exists ids].
Qed.

Lemma file_pairs_NoDup files :
  NoDup (stem <$> filter (fun f => is_Some (loaded rt f)) files) →
  (∀ f ids, f ∈ files → per_file_ids rt f = Some ids → NoDup ids) →
  NoDup (files ≫= file_pairs rt).
Proof.
  induction files as [|f r IH]; intros Hstems Hids; [constructor|].
  change ((f :: r) ≫= file_pairs rt) with (file_pairs rt f ++ (r ≫= file_pairs rt)).
  apply NoDup_app. split; [|split].
  - unfold file_pairs. destruct (per_file_ids rt f) as [ids|] eqn:Hf; [|constructor].
    apply NoDup_fmap_2_strong; [by intros x y _ _ [=]|].
    eapply Hids; [by constructor|done].
  - intros [s id] [-> (ids & Hf & _)]%elem_of_file_pairs
      (g & Hg & Hgr)%list_elem_of_bind.
    apply elem_of_file_pairs in Hg as [Hsg (ids' & Hg & _)].
    apply per_file_ids_loaded in Hf. apply per_file_ids_loaded in Hg.
    rewrite filter_cons, decide_True in Hstems by done.
    rewrite fmap_cons in Hstems. apply NoDup_cons in Hstems as [Hnot _].
    apply Hnot, list_elem_of_fmap. exists g. split; [done|].
    by apply list_elem_of_filter.
  - apply IH.
    + rewrite filter_cons in Hstems. case_decide; [|done].
      rewrite fmap_cons in Hstems. by apply NoDup_cons in Hstems as [_ ?].
    + intros g ids Hg. apply Hids. by constructor.
Qed.

End Uniqueness.

Lemma returned_rows (rt : runtime) (rows : list DataRow) :
  returned (merge_all rt) = inr rows →
  ∃ T : DataRow → DataRow,
    rows = T <$> all_rows (merge_loop rt get_label_map (find_files rt INPUT_DIR))
    ∧ (∀ r k, k ≠ py "label" → k ≠ ORIGINAL_TEXT_COL → T r !! k = r !! k)
    ∧ run_summary (merge_all rt) =
        Some (MkSummary (length rows) (value_counts (row_label <$> rows))
                (per_file_counts (merge_loop rt get_label_map (find_files rt INPUT_DIR)))).
Proof.
  intros Hret.
  destruct (all_rows (merge_loop rt get_label_map (find_files rt INPUT_DIR)))
    as [|r0 rs] eqn:Hrows.
  { by rewrite (merge_all_no_rows rt Hrows) in Hret. }
  destruct (merge_all_some_rows rt) as (T & out & Hrun & HT & _).
  { by rewrite Hrows. }
  rewrite Hrows in Hrun. rewrite Hrun in Hret |- *. simpl in Hret.
  injection Hret as <-. exists T. by split.
Qed.

(** C1 (as amended): when the files that load with a text column have
    pairwise distinct stems and, in each of them, the per-file row ids (the
    values of the id column or, without one, the index labels) are pairwise
    distinct and contain no underscore, the global ids of the merged rows
    are pairwise distinct. *)
Theorem merge_all_global_ids_unique (rt : runtime) (rows : list DataRow) :
  NoDup (stem <$> filter (fun f => is_Some (loaded rt f)) (find_files rt INPUT_DIR)) →
  (∀ f ids, f ∈ find_files rt INPUT_DIR → per_file_ids rt f = Some ids →
     NoDup ids ∧ ∀ id, id ∈ ids → 0x5F%N ∉ id) →
  returned (merge_all rt) = inr rows →
  NoDup (global_id <$> rows).
Proof.
  intros Hstems Hids (T & -> & HT & _)%returned_rows.
  rewrite <- list_fmap_compose.
  rewrite (list_fmap_ext (global_id ∘ T) global_id (all_rows _)); last first.
  { intros j r _. unfold global_id, cell. simpl. rewrite HT; [done|py_neq|py_neq]. }
  rewrite merge_loop_rows.
  eapply sublist_NoDup; [|apply all_rows_global_ids].
  apply NoDup_fmap_2_strong.
  - intros [s1 id1] [s2 id2] H1 H2 E.
    apply list_elem_of_bind in H1 as (f1 & [_ (ids1 & Hf1 & Hi1)]%elem_of_file_pairs & Hin1).
    apply list_elem_of_bind in H2 as (f2 & [_ (ids2 & Hf2 & Hi2)]%elem_of_file_pairs & Hin2).
    destruct (Hids _ _ Hin1 Hf1) as [_ Hu1]. destruct (Hids _ _ Hin2 Hf2) as [_ Hu2].
    apply make_global_id_inj in E as [-> ->]; auto.
  - apply file_pairs_NoDup; [done|]. intros f ids Hf Hp. by destruct (Hids _ _ Hf Hp).
Qed.

(** Without an id column and with the default index, the per-file ids are
    the decimal positions 0 .. n-1: pairwise distinct, without underscore. *)
Lemma positional_ids_well_formed (rt : runtime) f df t l ids :
  loaded rt f = Some (df, t, l, None) →
  df_index df = RangeIndex (nrows df) →
  per_file_ids rt f = Some ids →
  ids = str_of_nat <$> seq 0 (nrows df)
  ∧ NoDup ids ∧ ∀ id, id ∈ ids → 0x5F%N ∉ id.
Proof.
  intros Hl Hidx. unfold per_file_ids. rewrite Hl. unfold prepare_frame.
  assert (∀ d : DataFrame, df_index d = df_index df → nrows d = nrows df ∧
    (fun i => str (row_get (set_column d (py "_auto_idx_") (astype_str (df_index d))) i
                     (py "_auto_idx_"))) <$> seq 0 (nrows d)
    = str_of_nat <$> seq 0 (nrows df)) as Hgen.
  { intros d Hd. assert (nrows d = nrows df) as Hn by (unfold nrows; by rewrite Hd).
    split; [done|]. rewrite Hn. apply list_fmap_ext. intros j i Hi.
    apply lookup_seq in Hi as [-> Hi].
    unfold row_get. rewrite get_set_column, Hd, Hidx.
    unfold astype_str, RangeIndex. rewrite !list_lookup_fmap.
    rewrite lookup_seq_lt by lia. done. }
  assert (ids = str_of_nat <$> seq 0 (nrows df) →
          ids = str_of_nat <$> seq 0 (nrows df)
          ∧ NoDup ids ∧ ∀ id, id ∈ ids → 0x5F%N ∉ id) as Hfin.
  { intros ->. split; [done|]. split.
    - apply NoDup_fmap_2_strong; [|apply NoDup_seq].
      intros ?? _ _. apply str_of_nat_inj.
    - intros id (n & -> & _)%list_elem_of_fmap. apply str_of_nat_no_underscore. }
  destruct l as [l|]; simpl; intros [= <-]; apply Hfin;
    match goal with
    | |- context [set_column ?d (py "_auto_idx_") _] => exact (proj2 (Hgen d eq_refl))
    end.
Qed.

(** ** Empty runs and the run summary *)

Lemma no_file_loaded_no_rows (rt : runtime) lm files :
  (∀ f, f ∈ files → loaded rt f = None) →
  all_rows (merge_loop rt lm files) = [].
Proof.
  intros Hnone. rewrite merge_loop_rows.
  induction files as [|f r IH]; simpl; [done|].
  unfold file_rows at 1. rewrite (Hnone f) by constructor. simpl.
  apply IH. intros g Hg. apply Hnone. by constructor.
Qed.

(** C6: when the loop over the discovered files collects no row,
    [merge_all] raises its RuntimeError and none of the three output files
    has been written; only the lines of the loop were printed. *)
Theorem merge_all_fatal_when_no_rows (rt : runtime) :
  all_rows (merge_loop rt get_label_map (find_files rt INPUT_DIR)) = [] →
  returned (merge_all rt)
    = inl (Exn RuntimeError (py "No rows collected. Check INPUT_DIR and LABEL_MAP."))
  ∧ written (merge_all rt) = []
  ∧ stdout (merge_all rt)
    = printed (merge_loop rt get_label_map (find_files rt INPUT_DIR)).
Proof. intros Hrows. by rewrite (merge_all_no_rows rt Hrows). Qed.

(** C8 (as amended): the per-file counts of the run summary have an entry
    for a name exactly when it is the stem of a discovered file that loaded
    and had a text column, whether or not that file contributed rows; a
    file skipped because it failed to load or had no text column adds no
    entry. *)
Theorem summary_counts_entries (rt : runtime) (s : Summary) (k : pystr) :
  run_summary (merge_all rt) = Some s →
  is_Some (files_processed_counts s !! k)
  ↔ ∃ f, f ∈ find_files rt INPUT_DIR ∧ is_Some (loaded rt f) ∧ stem f = k.
Proof.
  intros Hs.
  destruct (all_rows (merge_loop rt get_label_map (find_files rt INPUT_DIR)))
    as [|r0 rs] eqn:Hrows.
  { by rewrite (merge_all_no_rows rt Hrows) in Hs. }
  destruct (merge_all_some_rows rt) as (T & out & Hrun & _).
  { by rewrite Hrows. }
  rewrite Hrun in Hs. injection Hs as <-. simpl. apply merge_loop_counts.
Qed.

(** ** The original-text column *)

Section OriginalText.

Context (rt : runtime).

Lemma elem_of_file_rows lm f r :
  r ∈ file_rows rt lm f →
  ∃ df t l idc i, data_row rt lm df (stem f) t l idc i = Some r.
Proof.
  unfold file_rows, rows_from_frame.
  destruct (loaded rt f) as [[[[df t] l] i]|]; [|by intros []%elem_of_nil].
  destruct (prepare_frame df t l i) as [[df' l'] i'].
  intros (k & _ & Hk)%list_elem_of_omap. by exists df', t, l', i', k.
Qed.

Lemma elem_of_all_rows lm files r :
  r ∈ all_rows (merge_loop rt lm files) →
  ∃ f df t l idc i, data_row rt lm df (stem f) t l idc i = Some r.
Proof.
  rewrite merge_loop_rows.
  intros Hr. apply list_elem_of_In, in_concat in Hr as (rows & Hrows & Hr).
  apply list_elem_of_In, list_elem_of_fmap in Hrows as (f & -> & _).
  exists f. by apply list_elem_of_In, elem_of_file_rows in Hr.
Qed.

Lemma data_row_text lm df src t l idc i r :
  data_row rt lm df src t l idc i = Some r →
  r !! ORIGINAL_TEXT_COL = None
  ∧ r !! py "text" = Some (PyStr (arabic_normalize rt (row_get df i t))).
Proof.
  intros Hr. split.
  - rewrite (data_row_fixed_key _ _ _ _ _ _ _ _ _ _ Hr) by (intros n; py_neq).
    do 5 (rewrite lookup_insert_ne by py_neq). apply lookup_empty.
  - rewrite (data_row_fixed_key _ _ _ _ _ _ _ _ _ _ Hr) by (intros n; py_neq).
    do 2 (rewrite lookup_insert_ne by py_neq). by rewrite lookup_insert_eq.
Qed.

Lemma all_rows_no_original_text lm files :
  has_column (all_rows (merge_loop rt lm files)) ORIGINAL_TEXT_COL = false.
Proof.
  unfold has_column. apply not_true_is_false. intros H.
  apply existsb_exists in H as (r & Hr%list_elem_of_In & Hsome).
  apply elem_of_all_rows in Hr as (f & df & t & l & idc & i & Hr).
  apply data_row_text in Hr as [Hnone _]. rewrite Hnone in Hsome.
  apply bool_decide_eq_true in Hsome. by destruct Hsome.
Qed.

(** In every run the [original_text] column repeats the [text] column,
    which holds the output of [arabic_normalize]. *)
Lemma original_text_is_normalized_text rows r :
  returned (merge_all rt) = inr rows → r ∈ rows →
  ∃ raw_text,
    r !! py "text" = Some (PyStr (arabic_normalize rt raw_text))
    ∧ r !! ORIGINAL_TEXT_COL = Some (PyStr (arabic_normalize rt raw_text)).
Proof.
  intros Hret Hr.
  destruct (all_rows (merge_loop rt get_label_map (find_files rt INPUT_DIR)))
    as [|r0 rs] eqn:Hrows.
  { by rewrite (merge_all_no_rows rt Hrows) in Hret. }
  destruct (merge_all_some_rows rt) as (T & out & Hrun & HT & Horig).
  { by rewrite Hrows. }
  rewrite Hrun in Hret. injection Hret as <-.
  apply list_elem_of_fmap in Hr as (r1 & -> & Hr1).
  apply elem_of_all_rows in Hr1 as (f & df & t & l & idc & i & Hr1).
  apply data_row_text in Hr1 as [_ Htext].
  exists (row_get df i t). rewrite HT by py_neq.
  rewrite Horig by apply all_rows_no_original_text.
  unfold cell. by rewrite Htext.
Qed.

End OriginalText.

(** ** The table loader *)

Lemma read_csv_encodings_all_fail (rt : runtime) path sep encs :
  (∀ enc, enc ∈ encs → ∃ e, pd_read_csv rt path sep enc = inl e) →
  read_csv_encodings rt path sep encs = None.
Proof.
  induction encs as [|enc r IH]; intros Hfail; simpl; [done|].
  destruct (Hfail enc) as [e ->]; [by constructor|].
  apply IH. intros enc' Hin. apply Hfail. by constructor.
Qed.

(** Whatever made the reads fail, the loader of a delimited file ends in
    the bare [raise]: its error carries neither the path nor the cause. *)
Lemma safe_read_table_all_encodings_fail (rt : runtime) path :
  str_in (str_lower rt (snd (OsPath.splitext path))) [py ".csv"; py ".tsv"] = true →
  (∀ sep enc, ∃ e, pd_read_csv rt path sep enc = inl e) →
  safe_read_table rt path = inl bare_raise.
Proof.
  intros Hext Hfail. unfold safe_read_table. rewrite Hext.
  rewrite read_csv_encodings_all_fail; [done|]. intros enc _. apply Hfail.
Qed.

(** A file the loader fails on is skipped: the rows and counts collected
    so far stay, one warning is printed. *)
Lemma process_file_unreadable (rt : runtime) lm acc fpath e :
  safe_read_table rt fpath = inl e →
  process_file rt lm acc fpath
  = Accum (all_rows acc) (per_file_counts acc)
          (printed acc ++ [WarnCouldNotRead fpath e]).
Proof. intros H. unfold process_file. by rewrite H. Qed.

(** ** Runs on concrete directories *)

(** C9: the three alef variants U+0625, U+0623, U+0622 normalize to three
    bare alefs U+0627. *)
Theorem arabic_normalize_alef_variants :
  arabic_normalize rt_empty_dir (PyStr [0x625; 0x623; 0x622]%N)
  = [0x627; 0x627; 0x627]%N.
Proof. vm_compute. reflexivity. Qed.

(** C5 (counterexample): on e, tatweel, combining acute the first pass
    removes the tatweel and leaves e followed by the accent; the second
    pass composes them into U+00E9. *)
Lemma arabic_normalize_not_idempotent :
  arabic_normalize rt_empty_dir (PyStr [0x65; 0x640; 0x301]%N) = [0x65; 0x301]%N
  ∧ arabic_normalize rt_empty_dir
      (PyStr (arabic_normalize rt_empty_dir (PyStr [0x65; 0x640; 0x301]%N)))
    = [0xE9]%N
  ∧ arabic_normalize rt_empty_dir
      (PyStr (arabic_normalize rt_empty_dir (PyStr [0x65; 0x640; 0x301]%N)))
    ≠ arabic_normalize rt_empty_dir (PyStr [0x65; 0x640; 0x301]%N).
Proof.
  split; [vm_compute; reflexivity|]. split; [vm_compute; reflexivity|].
  vm_compute. discriminate.
Qed.

(** An instance of C5 (as amended): a padded word with an alef variant, a
    diacritic, a tatweel and an alef maqsura. *)
Lemma arabic_normalize_idempotent_witness :
  arabic_normalize rt_empty_dir
    (PyStr (arabic_normalize rt_empty_dir (PyStr [0x20; 0x625; 0x64E; 0x640; 0x649]%N)))
  = arabic_normalize rt_empty_dir (PyStr [0x20; 0x625; 0x64E; 0x640; 0x649]%N).
Proof.
  apply (arabic_normalize_idempotent_on_nfkc_stable rt_empty_dir).
  vm_compute. reflexivity.
Defined.

(** An instance of C3: the label 0 of source D1, configured as offensive
    for D1 and as normal for all sources, maps to offensive. *)
Lemma map_label_for_row_override_witness :
  map_label_for_row rt_empty_dir (py "D1") (PyStr (py " 0 ")) label_map_with_override
  = Some (py "offensive").
Proof.
  apply (map_label_for_row_override rt_empty_dir).
  - intros l Hl. unfold CANONICAL_LABELS in Hl.
    rewrite !elem_of_cons, elem_of_nil in Hl.
    destruct Hl as [->|[->|[->|[]]]]; vm_compute; reflexivity.
  - unfold CANONICAL_LABELS. rewrite !elem_of_cons. right; left. reflexivity.
  - left. vm_compute. reflexivity.
Defined.

(** Closes an equation between closed terms by evaluation. *)
Ltac by_vm :=
  lazymatch goal with
  | |- ?a = _ => vm_cast_no_check (@eq_refl _ a)
  end.

(** C1 (counterexample): two files named a.csv in two subdirectories,
    neither with an id column, give two rows with the global id a_0. *)
Lemma merge_all_duplicate_global_ids :
  ∃ rows,
    returned (merge_all rt_same_stem) = inr rows
    ∧ global_id <$> rows = [py "a_0"; py "a_0"]
    ∧ ¬ NoDup (global_id <$> rows).
Proof.
  exists (merged_rows (merge_all rt_same_stem)).
  assert (global_id <$> merged_rows (merge_all rt_same_stem) = [py "a_0"; py "a_0"])
    as Hids by (by_vm).
  split; [by_vm|]. split; [exact Hids|].
  rewrite Hids. intros [Hnot _]%NoDup_cons. apply Hnot. by constructor.
Qed.

(** Distinct stems and distinct ids do not suffice: a.csv with the id b_c
    and a_b.csv with the id c both give the global id a_b_c. *)
Lemma global_ids_collide_on_underscore :
  global_id <$> merged_rows (merge_all rt_underscore_ids) = [py "a_b_c"; py "a_b_c"].
Proof. by_vm. Qed.

(** An instance of C1 (as amended): the files A.csv and B.csv, neither
    with an id column. *)
Lemma merge_all_global_ids_unique_witness :
  ∃ rows,
    returned (merge_all rt_two_files) = inr rows
    ∧ global_id <$> rows = [py "A_0"; py "B_0"]
    ∧ NoDup (global_id <$> rows).
Proof.
  exists (merged_rows (merge_all rt_two_files)).
  split; [by_vm|]. split; [by_vm|].
  assert (find_files rt_two_files INPUT_DIR
          = [py "All_datasets/A.csv"; py "All_datasets/B.csv"]) as Hfiles
    by (by_vm).
  apply (merge_all_global_ids_unique rt_two_files).
  - apply (bool_decide_unpack _). vm_compute. exact I.
  - intros f ids Hf Hids. rewrite Hfiles in Hf.
    apply elem_of_cons in Hf as [->|Hf];
      [|apply elem_of_cons in Hf as [->|Hf]; [|by apply elem_of_nil in Hf]].
    + eapply (positional_ids_well_formed rt_two_files); [| |exact Hids];
        vm_compute; reflexivity.
    + eapply (positional_ids_well_formed rt_two_files); [| |exact Hids];
        vm_compute; reflexivity.
  - by_vm.
Defined.

(** C4: on a file whose text is a letter between two spaces, the merged
    row keeps the raw text under the audit column of the text column,
    while its [original_text] column holds the normalized text. *)
Theorem original_text_holds_normalized_text :
  ∃ r,
    returned (merge_all rt_padded_text) = inr [r]
    ∧ r !! py "orig__text" = Some (PyStr (py " a "))
    ∧ r !! py "text" = Some (PyStr (py "a"))
    ∧ r !! ORIGINAL_TEXT_COL = Some (PyStr (py "a")).
Proof.
  exists (default ∅ (head (merged_rows (merge_all rt_padded_text)))).
  split; [by_vm|]. split; [by_vm|].
  split; by_vm.
Qed.

(** An instance of C6: a directory with one unreadable file and one file
    without a text column. *)
Lemma merge_all_fatal_witness :
  returned (merge_all rt_all_skipped)
    = inl (Exn RuntimeError (py "No rows collected. Check INPUT_DIR and LABEL_MAP."))
  ∧ written (merge_all rt_all_skipped) = []
  ∧ stdout (merge_all rt_all_skipped)
    = printed (merge_loop rt_all_skipped get_label_map
                 (find_files rt_all_skipped INPUT_DIR)).
Proof.
  apply (merge_all_fatal_when_no_rows rt_all_skipped).
  by_vm.
Defined.

(** C7: a delimited file that no encoding reads makes [safe_read_table]
    raise the RuntimeError of a bare [raise], which names neither the file
    nor the cause; [merge_all] prints its warning for that file, goes on
    with the next one and completes. *)
Theorem unreadable_file_raises_bare_error :
  safe_read_table rt_one_unreadable (py "All_datasets/empty.csv")
    = inl (Exn RuntimeError (py "No active exception to reraise"))
  ∧ stdout (merge_all rt_one_unreadable)
    = [ FoundFiles 2;
        Processed (py "All_datasets/b.csv") 1;
        WarnCouldNotRead (py "All_datasets/empty.csv")
          (Exn RuntimeError (py "No active exception to reraise"));
        InfoNoDuplicates; SavedMerged 1; SavedPerSource; SavedSummary ]
  ∧ length (merged_rows (merge_all rt_one_unreadable)) = 1.
Proof.
  split; [by_vm|]. split; by_vm.
Qed.

(** C8 (counterexample): bad.csv is discovered, fails to load and so
    contributes no row; the summary that is written has an entry for good
    and none for bad. *)
Lemma summary_omits_skipped_file :
  ∃ s,
    run_summary (merge_all rt_skipped_and_good) = Some s
    ∧ py "All_datasets/bad.csv" ∈ find_files rt_skipped_and_good INPUT_DIR
    ∧ file_rows rt_skipped_and_good get_label_map (py "All_datasets/bad.csv") = []
    ∧ files_processed_counts s !! py "good" = Some 1
    ∧ files_processed_counts s !! stem (py "All_datasets/bad.csv") = None.
Proof.
  exists (MkSummary 1 {[ py "normal" := 1 ]} {[ py "good" := 1 ]}).
  split; [by_vm|].
  split; [apply (bool_decide_unpack _); vm_compute; exact I|].
  split; [by_vm|]. split; by_vm.
Qed.

(** An instance of C8 (as amended): bad.csv fails to load, good.csv
    contributes one row. *)
Lemma summary_counts_entries_witness :
  is_Some (files_processed_counts
             (MkSummary 1 {[ py "normal" := 1 ]} {[ py "good" := 1 ]}) !! py "good")
  ↔ ∃ f, f ∈ find_files rt_skipped_and_good INPUT_DIR
         ∧ is_Some (loaded rt_skipped_and_good f) ∧ stem f = py "good".
Proof.
  apply (summary_counts_entries rt_skipped_and_good).
  by_vm.
Defined.

(** * Further properties of the script *)

(** ** File discovery *)

Lemma str_le_total a b : str_le a b = false → str_le b a = true.
Proof.
  revert b; induction a as [|x a IH]; intros [|y b]; simpl; try done.
  destruct (N.ltb_spec x y), (N.eqb_spec x y), (N.ltb_spec y x), (N.eqb_spec y x);
    simpl; try done; try lia. apply IH.
Qed.

Lemma str_le_trans a b c : str_le a b = true → str_le b c = true → str_le a c = true.
Proof.
  revert b c; induction a as [|x a IH]; intros [|y b] [|z c]; simpl; try done.
  destruct (N.ltb_spec x y), (N.eqb_spec x y), (N.ltb_spec y z), (N.eqb_spec y z),
    (N.ltb_spec x z), (N.eqb_spec x z); simpl; try done; try lia. apply IH.
Qed.

Lemma insert_sorted_perm x l : insert_sorted x l ≡ₚ x :: l.
Proof.
  induction l as [|y r IH]; simpl; [done|].
  destruct (str_le x y); [done|]. rewrite IH. apply Permutation_swap.
Qed.

Lemma insert_sorted_sorted x l :
  StronglySorted (fun a b => str_le a b = true) l →
  StronglySorted (fun a b => str_le a b = true) (insert_sorted x l).
Proof.
  induction 1 as [|y r Hr IH Hy]; simpl; [by repeat constructor|].
  destruct (str_le x y) eqn:Hxy.
  - constructor; [by constructor|]. constructor; [done|].
    eapply Forall_impl; [exact Hy|]. intros z Hz. by eapply str_le_trans.
  - constructor; [done|]. rewrite insert_sorted_perm.
    constructor; [by apply str_le_total|done].
Qed.

Lemma sorted_perm l : sorted l ≡ₚ l.
Proof.
  induction l as [|x r IH]; simpl; [done|].
  unfold sorted in *. simpl. by rewrite insert_sorted_perm, IH.
Qed.

Lemma sorted_sorted l : StronglySorted (fun a b => str_le a b = true) (sorted l).
Proof.
  induction l as [|x r IH]; simpl; [constructor|].
  by apply insert_sorted_sorted.
Qed.

(** X1: [find_files] returns every path [glob] finds for one of the six
    patterns, as many times as it is found (nothing is removed, nothing is
    added), in ascending order. *)
Theorem find_files_sorted_permutation (rt : runtime) (input_dir : pystr) :
  StronglySorted (fun a b => str_le a b = true) (find_files rt input_dir)
  ∧ find_files rt input_dir
    ≡ₚ concat ((fun p => glob_glob rt (OsPath.join input_dir p)) <$> default_patterns).
Proof. split; [apply sorted_sorted|apply sorted_perm]. Qed.

(** ** The table loader, further *)

Lemma read_csv_encodings_Some (rt : runtime) path sep encs df :
  read_csv_encodings rt path sep encs = Some df ↔
  ∃ tried enc rest,
    encs = tried ++ enc :: rest
    ∧ (∀ e, e ∈ tried → ∃ x, pd_read_csv rt path sep e = inl x)
    ∧ pd_read_csv rt path sep enc = inr df.
Proof.
  induction encs as [|enc r IH]; simpl.
  - split; [done|]. intros (tried & enc & rest & E & _). by destruct tried.
  - destruct (pd_read_csv rt path sep enc) as [x|df'] eqn:Hr.
    + rewrite IH. split.
      * intros (tried & enc' & rest & -> & Ht & He).
        exists (enc :: tried), enc', rest. split; [done|]. split; [|done].
        intros e [->|?]%elem_of_cons; [by eexists|by apply Ht].
      * intros (tried & enc' & rest & E & Ht & He).
        destruct tried as [|e tried]; simpl in E; injection E as E1 E2; subst.
        { congruence. }
        exists tried, enc', rest. split; [done|]. split; [|done].
        intros e' He'. apply Ht. by constructor.
    + split.
      * intros [= <-]. exists [], enc, r. split; [done|]. split; [|done].
        by intros e []%elem_of_nil.
      * intros (tried & enc' & rest & E & Ht & He).
        destruct tried as [|e tried]; simpl in E; injection E as E1 E2; subst.
        { congruence. }
        destruct (Ht e) as [x Hx]; [by constructor|]. congruence.
Qed.

(** X2: on a .csv or .tsv file (extension compared in lower case)
    [safe_read_table] returns the frame read with the first of the four
    encodings, in their order, whose read does not raise; the reads use the
    tab as separator for .tsv and the comma otherwise. *)
Theorem safe_read_table_first_encoding (rt : runtime) (path : pystr) (df : DataFrame) :
  let ext := str_lower rt (snd (OsPath.splitext path)) in
  let sep := if bool_decide (ext = py ".tsv") then [0x09%N] else py "," in
  str_in ext [py ".csv"; py ".tsv"] = true →
  (safe_read_table rt path = inr df ↔
   ∃ tried enc rest,
     csv_encodings = tried ++ enc :: rest
     ∧ (∀ e, e ∈ tried → ∃ x, pd_read_csv rt path sep e = inl x)
     ∧ pd_read_csv rt path sep enc = inr df).
Proof.
  intros ext sep Hext. unfold safe_read_table. fold ext. rewrite Hext. fold sep.
  rewrite <- (read_csv_encodings_Some rt path sep csv_encodings df).
  unfold csv_encodings. destruct (read_csv_encodings _ _ _ _); split; congruence.
Qed.

(** An instance of X2: UTF-8 fails twice, Latin-1 reads the file, the
    Arabic code page is never tried. *)
Lemma safe_read_table_first_encoding_witness :
  safe_read_table rt_legacy_encoding (py "All_datasets/old.csv")
  = inr (text_frame [py "latin"]).
Proof.
  apply (safe_read_table_first_encoding rt_legacy_encoding (py "All_datasets/old.csv"));
    [vm_compute; reflexivity|].
  exists [py "utf-8"; py "utf-8-sig"], (py "latin1"), [py "cp1256"].
  split; [reflexivity|]. split; [|vm_compute; reflexivity].
  intros e He. exists UnicodeDecodeError.
  apply elem_of_cons in He as [->|He]; [vm_compute; reflexivity|].
  apply elem_of_cons in He as [->|He]; [vm_compute; reflexivity|].
  by apply elem_of_nil in He.
Defined.

(** X3: on a .json file a line-delimited read that succeeds is returned;
    when it raises a ValueError the whole-document read decides, its own
    error included; any other exception is raised as it is and the
    whole-document read is not used. *)
Theorem safe_read_table_json_fallback (rt : runtime) (path : pystr) :
  str_lower rt (snd (OsPath.splitext path)) = py ".json" →
  (∀ df, pd_read_json rt path true = inr df → safe_read_table rt path = inr df)
  ∧ (∀ e, pd_read_json rt path true = inl e → is_ValueError e = true →
       safe_read_table rt path = pd_read_json rt path false)
  ∧ (∀ e, pd_read_json rt path true = inl e → is_ValueError e = false →
       safe_read_table rt path = inl e).
Proof.
  intros Hext. unfold safe_read_table. rewrite Hext.
  change (str_in (py ".json") [py ".csv"; py ".tsv"]) with false.
  change (str_in (py ".json") [py ".json"]) with true. cbv iota.
  repeat split.
  - by intros df ->.
  - by intros e -> ->.
  - by intros e -> ->.
Qed.

(** An instance of X3: the line-delimited read raises a ValueError and the
    whole document is read. *)
Lemma safe_read_table_json_fallback_witness :
  safe_read_table rt_legacy_encoding (py "All_datasets/doc.JSON")
  = inr (text_frame [py "document"]).
Proof.
  destruct (safe_read_table_json_fallback rt_legacy_encoding (py "All_datasets/doc.JSON"))
    as (_ & Hfall & _); [vm_compute; reflexivity|].
  rewrite (Hfall (Exn ValueError (py "Expected object or value")));
    vm_compute; reflexivity.
Defined.

(** X4: a path whose extension, in lower case, is none of the six known
    ones makes [safe_read_table] raise a ValueError whose message ends with
    the path; no reader is consulted, so the outcome is the same on every
    file system. *)
Theorem safe_read_table_unsupported (rt : runtime) (path : pystr) :
  str_lower rt (snd (OsPath.splitext path))
    ∉ [py ".csv"; py ".tsv"; py ".json"; py ".xlsx"; py ".xls"; py ".parquet"] →
  safe_read_table rt path
  = inl (Exn ValueError (py "Unsupported file type: " ++ path)).
Proof.
  intros Hext. unfold safe_read_table, str_in.
  rewrite !not_elem_of_cons in Hext. destruct Hext as (H1 & H2 & H3 & H4 & H5 & H6 & _).
  rewrite !bool_decide_eq_false_2; [done|..];
    rewrite ?not_elem_of_cons; repeat split; try done; apply not_elem_of_nil.
Qed.

(** An instance of X4: a text file. *)
Lemma safe_read_table_unsupported_witness :
  safe_read_table rt_legacy_encoding (py "All_datasets/notes.txt")
  = inl (Exn ValueError (py "Unsupported file type: All_datasets/notes.txt")).
Proof.
  apply (safe_read_table_unsupported rt_legacy_encoding (py "All_datasets/notes.txt")).
  apply (bool_decide_unpack _). vm_compute. exact I.
Defined.

(** ** The schema heuristics *)

Section Schema.

Context (rt : runtime).

(** The column a lowered name stands for: the last one that lowers to it. *)
Lemma foldl_lowered_lookup (cols : list Column) (m : gmap pystr pystr) k :
  foldl (fun m c => <[str_lower rt (col_name c) := col_name c]> m) m cols !! k
  = match last (filter (fun c => str_lower rt (col_name c) = k) cols) with
    | Some c => Some (col_name c)
    | None => m !! k
    end.
Proof.
  revert m; induction cols as [|c r IH]; intros m; simpl; [done|].
  rewrite IH, filter_cons. case_decide as Hc.
  - rewrite last_cons. destruct (last (filter _ r)); [done|].
    by rewrite <- Hc, lookup_insert_eq.
  - destruct (last (filter _ r)); [done|]. by rewrite lookup_insert_ne.
Qed.

Lemma lowered_columns_lookup df k :
  lowered_columns rt df !! k
  = col_name <$> last (filter (fun c => str_lower rt (col_name c) = k) (df_columns df)).
Proof.
  unfold lowered_columns. rewrite foldl_lowered_lookup, lookup_empty.
  by destruct (last _).
Qed.

Lemma lowered_columns_None df k :
  lowered_columns rt df !! k = None
  ↔ ∀ c, c ∈ df_columns df → str_lower rt (col_name c) ≠ k.
Proof.
  rewrite lowered_columns_lookup, fmap_None, last_None. split.
  - intros Hnil c Hc Hk. eapply filter_nil_not_elem_of; [exact Hnil| |exact Hc]. done.
  - intros Hno. destruct (filter _ _) as [|c l] eqn:Hf; [done|].
    assert (c ∈ filter (fun c => str_lower rt (col_name c) = k) (df_columns df))
      as [Hk Hc]%list_elem_of_filter by (rewrite Hf; constructor).
    by destruct (Hno c Hc).
Qed.

Lemma lowered_columns_in_frame df k c :
  lowered_columns rt df !! k = Some c → c ∈ col_name <$> df_columns df.
Proof.
  rewrite lowered_columns_lookup. intros (x & Hx & ->)%fmap_Some.
  apply last_Some_elem_of, list_elem_of_filter in Hx as [_ Hx].
  apply list_elem_of_fmap. by exists x.
Qed.

Lemma first_preferred_None (cols : gmap pystr pystr) names :
  first_preferred cols names = None ↔ ∀ n, n ∈ names → cols !! n = None.
Proof.
  induction names as [|n r IH]; simpl.
  - split; [by intros _ n []%elem_of_nil|done].
  - destruct (cols !! n) eqn:Hn.
    + split; [done|]. intros H. specialize (H n). rewrite Hn in H.
      by apply H; constructor.
    + rewrite IH. split.
      * intros H n' [->|?]%elem_of_cons; [done|by apply H].
      * intros H n' Hn'. apply H. by constructor.
Qed.

Lemma first_preferred_first (cols : gmap pystr pystr) pre name post c :
  (∀ p, p ∈ pre → cols !! p = None) → cols !! name = Some c →
  first_preferred cols (pre ++ name :: post) = Some c.
Proof.
  induction pre as [|p pre IH]; simpl; intros Hpre Hname; [by rewrite Hname|].
  rewrite (Hpre p) by constructor. apply IH; [|done].
  intros q Hq. apply Hpre. by constructor.
Qed.

Lemma first_preferred_in_frame df names c :
  first_preferred (lowered_columns rt df) names = Some c →
  c ∈ col_name <$> df_columns df.
Proof.
  induction names as [|n r IH]; simpl; [done|].
  destruct (lowered_columns rt df !! n) eqn:Hn; [|done].
  intros [= <-]. by eapply lowered_columns_in_frame.
Qed.

End Schema.

(** X5: every column name [canonicalize_columns] returns, for the text,
    the label or the id, is the name of a column of the frame. *)
Theorem canonicalize_columns_in_frame (rt : runtime) (df : DataFrame) :
  let '(text_col, label_col, id_col) := canonicalize_columns rt df in
  (∀ c, text_col = Some c → c ∈ col_name <$> df_columns df)
  ∧ (∀ c, label_col = Some c → c ∈ col_name <$> df_columns df)
  ∧ (∀ c, id_col = Some c → c ∈ col_name <$> df_columns df).
Proof.
  unfold canonicalize_columns. split; [|split].
  - intros c. destruct (first_preferred _ _) as [t|] eqn:Ht.
    + intros [= <-]. by eapply first_preferred_in_frame.
    + intros (x & Hx & ->)%fmap_Some.
      apply head_Some_elem_of, list_elem_of_filter in Hx as [_ Hx].
      apply list_elem_of_fmap. by exists x.
  - intros c. apply first_preferred_in_frame.
  - intros c. apply first_preferred_in_frame.
Qed.

(** X6: whichever preference list it is in, the first name of the list
    that some column has in lower case wins, and it selects the last
    column that lowers to it. *)
Theorem canonicalize_columns_preference (rt : runtime) (df : DataFrame)
  (pre : list pystr) (name : pystr) (post : list pystr) (c : Column) :
  (∀ p, p ∈ pre → ∀ c', c' ∈ df_columns df → str_lower rt (col_name c') ≠ p) →
  last (filter (fun c' => str_lower rt (col_name c') = name) (df_columns df)) = Some c →
  let '(text_col, label_col, id_col) := canonicalize_columns rt df in
  (prefer_text_fields = pre ++ name :: post → text_col = Some (col_name c))
  ∧ (prefer_label_fields = pre ++ name :: post → label_col = Some (col_name c))
  ∧ (id_candidates = pre ++ name :: post → id_col = Some (col_name c)).
Proof.
  intros Hpre Hlast.
  assert (∀ names, names = pre ++ name :: post →
            first_preferred (lowered_columns rt df) names = Some (col_name c)) as Hfirst.
  { intros names ->. apply first_preferred_first.
    - intros p Hp. apply lowered_columns_None. by apply Hpre.
    - by rewrite lowered_columns_lookup, Hlast. }
  unfold canonicalize_columns. split; [|split].
  - intros E. unfold prefer_text_fields in E. by rewrite (Hfirst _ E).
  - intros E. unfold prefer_label_fields in E. by rewrite (Hfirst _ E).
  - intros E. unfold id_candidates in E. by rewrite (Hfirst _ E).
Qed.

(** An instance of X6: of the columns Tweet, TEXT and Text the last one
    named text in lower case is the text column, although Tweet comes
    first in the frame. *)
Lemma canonicalize_columns_preference_witness :
  (canonicalize_columns rt_empty_dir mixed_case_frame).1.1 = Some (py "Text").
Proof.
  pose proof (canonicalize_columns_preference rt_empty_dir mixed_case_frame
    [] (py "text") [py "content"; py "tweet"; py "sentence"; py "comment"; py "post"]
    (Col (py "Text") true [PyStr (py "b")])) as H.
  destruct (canonicalize_columns rt_empty_dir mixed_case_frame) as [[t l] i].
  destruct H as (Ht & _ & _).
  - by intros p []%elem_of_nil.
  - vm_compute. reflexivity.
  - by rewrite Ht.
Defined.

(** X7: no text column is found exactly when no column has a preferred
    text name in lower case and no column is of string type; for the label
    and the id there is no such fallback: they are missing exactly when no
    column has one of their names in lower case. *)
Theorem canonicalize_columns_absent (rt : runtime) (df : DataFrame) :
  let '(text_col, label_col, id_col) := canonicalize_columns rt df in
  (text_col = None ↔
     ∀ c, c ∈ df_columns df →
       (str_lower rt (col_name c) ∉ prefer_text_fields) ∧ col_string_dtype c = false)
  ∧ (label_col = None ↔
     ∀ c, c ∈ df_columns df → str_lower rt (col_name c) ∉ prefer_label_fields)
  ∧ (id_col = None ↔
     ∀ c, c ∈ df_columns df → str_lower rt (col_name c) ∉ id_candidates).
Proof.
  assert (∀ names, first_preferred (lowered_columns rt df) names = None
            ↔ ∀ c, c ∈ df_columns df → str_lower rt (col_name c) ∉ names) as Hnone.
  { intros names. rewrite first_preferred_None. split.
    - intros H c Hc Hin. specialize (H _ Hin).
      by eapply lowered_columns_None in H.
    - intros H n Hn. apply lowered_columns_None. intros c Hc E.
      apply (H c Hc). by rewrite E. }
  unfold canonicalize_columns.
  split; [|split; [apply (Hnone prefer_label_fields)|apply (Hnone id_candidates)]].
  change [py "text"; py "content"; py "tweet"; py "sentence"; py "comment"; py "post"]
    with prefer_text_fields.
  destruct (first_preferred (lowered_columns rt df) prefer_text_fields) as [t|] eqn:Ht.
  - split; [done|]. intros H. exfalso.
    assert (Some t = None) as [=]. rewrite <- Ht. apply Hnone.
    intros c Hc. by apply H.
  - rewrite fmap_None. split.
    + intros Hhead c Hc. split; [by eapply Hnone|].
      destruct (col_string_dtype c) eqn:Hs; [|done]. exfalso.
      destruct (filter _ _) as [|x xs] eqn:Hf; [|done].
      by eapply (filter_nil_not_elem_of _ _ c Hf).
    + intros H. destruct (filter _ _) as [|x xs] eqn:Hf; [done|].
      assert (x ∈ filter (fun c => col_string_dtype c = true) (df_columns df))
        as [Hx Hin]%list_elem_of_filter by (rewrite Hf; constructor).
      destruct (H x Hin) as [_ Hfalse]. congruence.
Qed.

(** ** The label mapper, further *)

Lemma strip_idempotent s : strip (strip s) = strip s.
Proof. apply strip_fix; [apply head_strip|apply last_strip]. Qed.

Lemma rstrip_blank s : forallb isspace s = true → rstrip s = [].
Proof.
  induction s as [|c r IH]; simpl; [done|].
  intros [Hc Hr]%andb_prop. by rewrite IH, Hc.
Qed.

Lemma strip_blank s : forallb isspace s = true → strip s = [].
Proof. intros H. unfold strip. by rewrite rstrip_blank. Qed.

(** X8: the tables are consulted in the order source, all, empty string,
    with the trimmed label; the first entry found decides, after it was
    put in lower case and stripped, and an entry that is then none of the
    three canonical labels gives normal. *)
Theorem map_label_for_row_layers (rt : runtime) (src : pystr) (lbl_raw : pyval)
  (label_map : LabelMap) (v : pystr) :
  let entry k := label_map !! k ≫= (.!! trim_label lbl_raw) in
  entry src = Some v
  ∨ (entry src = None ∧ entry (py "all") = Some v)
  ∨ (entry src = None ∧ entry (py "all") = None ∧ entry [] = Some v) →
  map_label_for_row rt src lbl_raw label_map
  = Some (let m := strip (str_lower rt v) in
          if bool_decide (m ∈ CANONICAL_LABELS) then m else py "normal").
Proof.
  intros entry Hentry. unfold map_label_for_row. fold (entry src).
  fold (entry (py "all")). fold (entry []).
  assert (match entry src with
          | Some v => Some v
          | None => match entry (py "all") with
                    | Some v => Some v
                    | None => entry []
                    end
          end = Some v) as ->.
  { destruct Hentry as [->|[[-> ->]|(-> & -> & ->)]]; done. }
  cbv zeta iota beta. unfold str_in. by case_bool_decide.
Qed.

(** An instance of X8: only the reserved table knows the label, and its
    entry is written with a capital and spaces. *)
Lemma map_label_for_row_layers_witness :
  map_label_for_row rt_empty_dir (py "D9") (PyStr (py " x")) label_map_reserved
  = Some (py "profanity").
Proof.
  rewrite (map_label_for_row_layers rt_empty_dir (py "D9") (PyStr (py " x"))
             label_map_reserved (py " Profanity ")).
  - vm_compute. reflexivity.
  - right. right. repeat split; vm_compute; reflexivity.
Defined.

(** X9: a non-empty trimmed label that no table knows is looked up, in
    lower case, in the three keyword sets, normal first, then offensive,
    then profanity; a label in none of them gives normal.  [str.lower] is
    only required to leave the three canonical labels as they are. *)
Theorem map_label_for_row_keywords (rt : runtime) (src : pystr) (lbl_raw : pyval)
  (label_map : LabelMap) :
  (∀ l, l ∈ CANONICAL_LABELS → str_lower rt l = l) →
  (∀ k, k ∈ [src; py "all"; []] → label_map !! k ≫= (.!! trim_label lbl_raw) = None) →
  trim_label lbl_raw ≠ [] →
  let low := str_lower rt (trim_label lbl_raw) in
  map_label_for_row rt src lbl_raw label_map
  = Some (if bool_decide (low ∈ normal_like) then py "normal"
          else if bool_decide (low ∈ offensive_like) then py "offensive"
          else if bool_decide (low ∈ profanity_like) then py "profanity"
          else py "normal").
Proof.
  intros Hlow Hnone Hne low. unfold map_label_for_row.
  rewrite !Hnone by (rewrite !elem_of_cons; tauto).
  rewrite (bool_decide_eq_true_2 _ Hne). fold low.
  unfold DROP_UNMAPPED, DEFAULT_MAP_TARGET, str_in.
  fold normal_like offensive_like profanity_like.
  assert (∀ l, l ∈ CANONICAL_LABELS →
            (let mapped := strip (str_lower rt l) in
             if negb (bool_decide (mapped ∈ CANONICAL_LABELS))
             then Some (py "normal") else Some mapped) = Some l) as Hfin.
  { intros l Hl. cbv zeta. rewrite (Hlow l Hl), (strip_canonical l Hl).
    by rewrite bool_decide_eq_true_2. }
  assert (py "normal" ∈ CANONICAL_LABELS ∧ py "offensive" ∈ CANONICAL_LABELS
          ∧ py "profanity" ∈ CANONICAL_LABELS) as (Hn & Ho & Hp).
  { unfold CANONICAL_LABELS. rewrite !elem_of_cons. tauto. }
  destruct (bool_decide (low ∈ normal_like)); [exact (Hfin _ Hn)|].
  destruct (bool_decide (low ∈ offensive_like)); [exact (Hfin _ Ho)|].
  destruct (bool_decide (low ∈ profanity_like)); [exact (Hfin _ Hp)|].
  exact (Hfin _ Hn).
Qed.

(** An instance of X9: a keyword in capitals between spaces. *)
Lemma map_label_for_row_keywords_witness :
  map_label_for_row rt_empty_dir (py "D1") (PyStr (py " Swear_Word ")) ∅
  = Some (py "profanity").
Proof.
  rewrite (map_label_for_row_keywords rt_empty_dir).
  - vm_compute. reflexivity.
  - intros l Hl. unfold CANONICAL_LABELS in Hl.
    rewrite !elem_of_cons, elem_of_nil in Hl.
    destruct Hl as [->|[->|[->|[]]]]; vm_compute; reflexivity.
  - intros k _. by rewrite lookup_empty.
  - apply (bool_decide_unpack _). vm_compute. exact I.
Defined.

(** X10: the label is read without the white space around it, and a
    missing label (None), the empty string and a string of white space
    are mapped alike. *)
Theorem map_label_for_row_trims (rt : runtime) (src : pystr) (s : pystr)
  (label_map : LabelMap) :
  map_label_for_row rt src (PyStr s) label_map
  = map_label_for_row rt src (PyStr (strip s)) label_map
  ∧ map_label_for_row rt src PyNone label_map
    = map_label_for_row rt src (PyStr []) label_map
  ∧ (forallb isspace s = true →
     map_label_for_row rt src (PyStr s) label_map
     = map_label_for_row rt src PyNone label_map).
Proof.
  unfold map_label_for_row, trim_label. simpl str.
  rewrite strip_idempotent. split; [done|]. split; [done|].
  intros Hs. by rewrite (strip_blank s Hs).
Qed.

(** ** The text normalizer, further *)

Lemma length_lstrip s : length (lstrip s) ≤ length s.
Proof.
  induction s as [|c r IH]; simpl; [done|]. destruct (isspace c); simpl; lia.
Qed.

Lemma length_rstrip s : length (rstrip s) ≤ length s.
Proof.
  induction s as [|c r IH]; simpl; [done|].
  destruct (rstrip r); [destruct (isspace c)|]; simpl in *; lia.
Qed.

Lemma length_sub_ws b s : length (sub_ws b s) ≤ length s.
Proof.
  revert b; induction s as [|c r IH]; intros b; simpl; [done|].
  destruct (isspace c); [destruct b|]; simpl;
    [specialize (IH true)|specialize (IH true)|specialize (IH false)]; lia.
Qed.

Lemma length_fold_steps s : length (fold_steps s) ≤ length s.
Proof.
  unfold fold_steps, collapse_whitespace, strip, fold_alef_maqsura,
    remove_diacritics, fold_alef, remove_tatweel.
  etrans; [apply length_lstrip|]. etrans; [apply length_rstrip|].
  etrans; [apply length_sub_ws|]. rewrite length_fmap.
  etrans; [apply length_filter|]. rewrite length_fmap. apply length_filter.
Qed.

(** X11: the result of [arabic_normalize] holds none of the alef variants
    U+0622, U+0623 and U+0625, and it is never longer than the NFKC form
    of a [str] input. *)
Theorem arabic_normalize_no_alef_variant (rt : runtime) :
  (∀ v c, c ∈ arabic_normalize rt v → c ≠ 0x622%N ∧ c ≠ 0x623%N ∧ c ≠ 0x625%N)
  ∧ (∀ s, length (arabic_normalize rt (PyStr s))
          ≤ length (unicodedata_normalize_NFKC rt s)).
Proof.
  split.
  - intros v c Hc. destruct (arabic_normalize_fold_steps rt v) as [s Hs].
    rewrite Hs in Hc. pose proof (fold_steps_folded s) as Hf.
    rewrite Forall_forall in Hf. apply Hf, folded_spec in Hc as (_ & Ha & _).
    unfold is_alef_variant in Ha.
    apply orb_false_elim in Ha as [[H5 H3]%orb_false_elim H2].
    apply N.eqb_neq in H5, H3, H2. done.
  - intros s. apply length_fold_steps.
Qed.

Lemma forallb_isspace_sub_ws b s :
  forallb isspace (sub_ws b s) = forallb isspace s.
Proof.
  revert b; induction s as [|c r IH]; intros b; simpl; [done|].
  destruct (isspace c) eqn:Hc; [destruct b|]; simpl; rewrite ?Hc, IH; done.
Qed.

Lemma lstrip_nil s : lstrip s = [] ↔ forallb isspace s = true.
Proof.
  induction s as [|c r IH]; simpl; [done|]. destruct (isspace c); [done|].
  split; done.
Qed.

Lemma rstrip_nil s : rstrip s = [] ↔ forallb isspace s = true.
Proof.
  split; [|apply rstrip_blank].
  induction s as [|c r IH]; simpl; [done|].
  destruct (rstrip r) as [|x r'] eqn:Hr; [|done].
  destruct (isspace c); [|done]. intros _. by apply IH.
Qed.

Lemma strip_nil s : strip s = [] ↔ forallb isspace s = true.
Proof.
  split; [|apply strip_blank]. unfold strip. intros Hl.
  apply rstrip_nil. destruct (rstrip s) as [|x r] eqn:Hr; [done|].
  exfalso. apply lstrip_nil in Hl.
  destruct (last (x :: r)) as [c|] eqn:Hlast; [|by apply last_None in Hlast].
  assert (isspace c = false) as Hc by (apply (last_rstrip s); by rewrite Hr).
  apply last_Some_elem_of, list_elem_of_In in Hlast.
  rewrite forallb_forall in Hl. specialize (Hl c Hlast). congruence.
Qed.

Lemma isspace_letter_steps x :
  is_diacritic (if is_alef_variant x then 0x627%N else x) = is_diacritic x
  ∧ isspace (let y := if is_alef_variant x then 0x627%N else x in
             if (y =? 0x649)%N then 0x64A%N else y) = isspace x.
Proof.
  unfold is_alef_variant.
  destruct (N.eqb_spec x 0x625) as [->|?]; [done|].
  destruct (N.eqb_spec x 0x623) as [->|?]; [done|].
  destruct (N.eqb_spec x 0x622) as [->|?]; [done|].
  simpl. destruct (N.eqb_spec x 0x649) as [->|?]; done.
Qed.

(** X12: a [str] is normalized to the empty string exactly when every
    character of its NFKC form is white space, a tatweel or a diacritic
    of the removed ranges. *)
Theorem arabic_normalize_empty (rt : runtime) (s : pystr) :
  arabic_normalize rt (PyStr s) = []
  ↔ ∀ c, c ∈ unicodedata_normalize_NFKC rt s →
      isspace c = true ∨ c = 0x640%N ∨ is_diacritic c = true.
Proof.
  unfold arabic_normalize, collapse_whitespace.
  generalize (unicodedata_normalize_NFKC rt s). intros t.
  rewrite strip_nil, forallb_isspace_sub_ws.
  unfold fold_alef_maqsura, remove_diacritics, fold_alef, remove_tatweel.
  rewrite forallb_forall. split.
  - intros H c Hc.
    destruct (decide (c = 0x640%N)) as [->|Hne]; [tauto|].
    destruct (is_diacritic c) eqn:Hd; [tauto|]. left.
    destruct (isspace_letter_steps c) as [Hd' Hw]. rewrite <- Hw.
    apply H, list_elem_of_In, list_elem_of_fmap. eexists. split; [reflexivity|].
    apply list_elem_of_filter. split; [by rewrite Hd'|].
    apply list_elem_of_fmap. eexists. split; [reflexivity|].
    by apply list_elem_of_filter.
  - intros H c Hc. apply list_elem_of_In in Hc.
    apply list_elem_of_fmap in Hc as (y & -> & Hy).
    apply list_elem_of_filter in Hy as [Hd Hy].
    apply list_elem_of_fmap in Hy as (x & -> & Hx).
    apply list_elem_of_filter in Hx as [Hx Hin].
    destruct (isspace_letter_steps x) as [Hd' Hw].
    cbv zeta in Hw. rewrite Hw. rewrite Hd' in Hd.
    destruct (H x Hin) as [?|[?|?]]; [done|done|congruence].
Qed.

(** ** The merged rows *)

Section MergedRows.

Context (rt : runtime).

Lemma data_row_is_Some lm df src t l idc i :
  is_Some (data_row rt lm df src t l idc i).
Proof.
  unfold data_row.
  destruct (map_label_for_row_final rt src (row_get df i l) lm) as [m ->].
  by eexists.
Qed.

Lemma data_row_fields lm df src t l idc i r :
  data_row rt lm df src t l idc i = Some r →
  r !! py "global_id" = Some (PyStr (src ++ py "_" ++ str (row_get df i idc)))
  ∧ r !! py "source" = Some (PyStr src)
  ∧ r !! py "text" = Some (PyStr (arabic_normalize rt (row_get df i t)))
  ∧ r !! py "label_orig" = Some (row_get df i l)
  ∧ ∃ m, map_label_for_row rt src (row_get df i l) lm = Some m
         ∧ r !! py "label" = Some (PyStr m).
Proof.
  intros Hr.
  destruct (map_label_for_row_final rt src (row_get df i l) lm) as [m Hm].
  repeat split.
  - rewrite (data_row_fixed_key _ _ _ _ _ _ _ _ _ _ Hr) by (intros n; py_neq).
    do 4 (rewrite lookup_insert_ne by py_neq). by rewrite lookup_insert_eq.
  - rewrite (data_row_fixed_key _ _ _ _ _ _ _ _ _ _ Hr) by (intros n; py_neq).
    do 3 (rewrite lookup_insert_ne by py_neq). by rewrite lookup_insert_eq.
  - rewrite (data_row_fixed_key _ _ _ _ _ _ _ _ _ _ Hr) by (intros n; py_neq).
    do 2 (rewrite lookup_insert_ne by py_neq). by rewrite lookup_insert_eq.
  - rewrite (data_row_fixed_key _ _ _ _ _ _ _ _ _ _ Hr) by (intros n; py_neq).
    do 1 (rewrite lookup_insert_ne by py_neq). by rewrite lookup_insert_eq.
  - exists (final_check rt m). split; [done|].
    rewrite (data_row_fixed_key _ _ _ _ _ _ _ _ _ _ Hr) by (intros n; py_neq).
    by rewrite lookup_insert_eq, Hm.
Qed.

Lemma foldl_orig_keys (p : pystr) (g : Column → pyval) (cols : list Column)
  (d : DataRow) k :
  is_Some (foldl (fun d c => <[p ++ col_name c := g c]> d) d cols !! k)
  ↔ is_Some (d !! k) ∨ ∃ c, c ∈ cols ∧ k = p ++ col_name c.
Proof.
  revert d; induction cols as [|c r IH]; intros d; cbn [foldl].
  - split; [by left|]. intros [?|(c & []%elem_of_nil & _)]; done.
  - rewrite IH, lookup_insert. case_decide as Hk.
    + split; [intros _|intros _; left; by eexists].
      right. exists c. split; [by constructor|done].
    + split.
      * intros [?|(c' & ? & ?)]; [by left|]. right. exists c'. split; [by constructor|done].
      * intros [?|(c' & [->|?]%elem_of_cons & ?)]; [by left|done|].
        right. by exists c'.
Qed.

Lemma foldl_orig_value (p : pystr) (h : pystr → pyval) (cols : list Column)
  (d : DataRow) c :
  c ∈ cols →
  foldl (fun d c => <[p ++ col_name c := h (col_name c)]> d) d cols
    !! (p ++ col_name c) = Some (h (col_name c)).
Proof.
  revert d. induction cols as [|x r IH] using rev_ind; intros d Hc.
  { by apply elem_of_nil in Hc. }
  rewrite foldl_app. cbn [foldl].
  destruct (decide (col_name x = col_name c)) as [E|Hne].
  - by rewrite E, lookup_insert_eq.
  - rewrite lookup_insert_ne by (intros E%app_inv_head; done).
    apply elem_of_app in Hc as [Hc|Hc%list_elem_of_singleton]; [by apply IH|].
    by subst.
Qed.

Lemma data_row_audit lm df src t l idc i r :
  data_row rt lm df src t l idc i = Some r →
  (∀ c, c ∈ df_columns df →
     r !! (py "orig__" ++ col_name c) = Some (row_get df i (col_name c)))
  ∧ (∀ k, is_Some (r !! k) ↔
       k ∈ [py "global_id"; py "source"; py "text"; py "label_orig"; py "label"]
       ∨ ∃ c, c ∈ df_columns df ∧ k = py "orig__" ++ col_name c).
Proof.
  unfold data_row.
  destruct (map_label_for_row rt src (row_get df i l) lm) as [m|]; [|done].
  intros [= <-]. unfold KEEP_ALL_COLUMNS. split.
  - intros c Hc. by apply (foldl_orig_value (py "orig__") (row_get df i)).
  - intros k.
    rewrite (foldl_orig_keys (py "orig__") (fun c => row_get df i (col_name c))).
    apply or_iff_compat_r. rewrite !elem_of_cons, elem_of_nil.
    rewrite !lookup_insert. repeat case_decide; subst;
      rewrite ?lookup_empty; split; try (intros [? [=]]); try (by eexists); try tauto;
      intros [?|[?|[?|[?|[?|[]]]]]]; congruence.
Qed.

Lemma all_rows_labels_canonical lm files r :
  r ∈ all_rows (merge_loop rt lm files) → row_label r ∈ CANONICAL_LABELS.
Proof.
  intros (f & df & t & l & idc & i & Hr)%elem_of_all_rows.
  apply data_row_fields in Hr as (_ & _ & _ & _ & m & Hm & Hl).
  unfold row_label, cell. rewrite Hl. simpl.
  destruct (map_label_for_row_final rt (stem f) (row_get df i l) lm) as [m' Hm'].
  rewrite Hm' in Hm. injection Hm as <-. apply final_check_canonical.
Qed.

(** What a run that does not raise returns: the collected rows, each with
    its text repeated under [original_text]. *)
Lemma merge_all_returned_exact rows :
  returned (merge_all rt) = inr rows →
  rows = with_original_text
         <$> all_rows (merge_loop rt get_label_map (find_files rt INPUT_DIR)).
Proof.
  unfold merge_all.
  pose proof (all_rows_labels_canonical get_label_map (find_files rt INPUT_DIR)) as Hcan.
  pose proof (all_rows_no_original_text rt get_label_map (find_files rt INPUT_DIR)) as Hno.
  destruct (all_rows _) as [|r0 rs] eqn:Hrows; [done|].
  change (Nat.eqb (length (r0 :: rs)) 0) with false. cbv iota.
  set (merged := r0 :: rs) in *.
  assert (filter (fun l => l ∉ CANONICAL_LABELS) (remove_dups (row_label <$> merged)) = [])
    as ->.
  { destruct (filter _ _) as [|b bs] eqn:Hf; [done|]. exfalso.
    assert (b ∈ filter (fun l => l ∉ CANONICAL_LABELS) (remove_dups (row_label <$> merged)))
      as [Hb Hin]%list_elem_of_filter by (rewrite Hf; constructor).
    apply elem_of_remove_dups, list_elem_of_fmap in Hin as (r & -> & Hr).
    by apply Hb, Hcan. }
  cbv zeta iota beta. rewrite Hno. cbn [negb]. by intros [= <-].
Qed.

End MergedRows.

Section MergedFacts.

Context (rt : runtime).

Lemma with_original_text_lookup r k :
  with_original_text r !! k
  = if decide (k = ORIGINAL_TEXT_COL) then Some (cell r (py "text")) else r !! k.
Proof.
  unfold with_original_text. rewrite lookup_insert.
  repeat case_decide; congruence.
Qed.

Lemma prepare_frame_nrows df t l i :
  nrows (prepare_frame df t l i).1.1 = nrows df.
Proof. unfold prepare_frame. by destruct l, i. Qed.

Lemma omap_fmap_total {A B C} (f : A → option B) (h : B → C) (k : A → C)
  (l : list A) :
  (∀ x, ∃ y, f x = Some y ∧ h y = k x) → h <$> omap f l = k <$> l.
Proof.
  intros Hf. induction l as [|x l IH]; [done|].
  change (omap f (x :: l))
    with (match f x with Some y => y :: omap f l | None => omap f l end).
  destruct (Hf x) as (y & -> & Hy). by rewrite !fmap_cons, IH, Hy.
Qed.

Lemma length_omap_total {A B} (f : A → option B) (l : list A) :
  (∀ x, is_Some (f x)) → length (omap f l) = length l.
Proof.
  intros Hf.
  rewrite <- (length_fmap (fun _ => tt) (omap f l)), <- (length_fmap (fun _ => tt) l).
  f_equal. apply omap_fmap_total. intros x. destruct (Hf x) as [y ->]. by exists y.
Qed.

Lemma elem_of_file_rows_prepared lm f r :
  r ∈ file_rows rt lm f →
  ∃ df t l idc i,
    prepared rt f = Some (df, t, l, idc) ∧ i < nrows df
    ∧ data_row rt lm df (stem f) t l idc i = Some r.
Proof.
  unfold file_rows, prepared, rows_from_frame.
  destruct (loaded rt f) as [[[[df t] l] i]|]; [|by intros []%elem_of_nil].
  destruct (prepare_frame df t l i) as [[df' l'] i'].
  intros (k & Hk%elem_of_seq & Hr)%list_elem_of_omap.
  exists df', t, l', i', k. split; [done|]. split; [lia|done].
Qed.

Lemma length_file_rows lm f : length (file_rows rt lm f) = file_nrows rt f.
Proof.
  unfold file_rows, file_nrows, rows_from_frame.
  destruct (loaded rt f) as [[[[df t] l] i]|]; [|done].
  pose proof (prepare_frame_nrows df t l i) as Hn.
  destruct (prepare_frame df t l i) as [[df' l'] i']. simpl in Hn.
  rewrite <- Hn. rewrite length_omap_total by (intros k; apply data_row_is_Some).
  apply length_seq.
Qed.

Lemma file_rows_global_ids_exact lm f :
  global_id <$> file_rows rt lm f = make_global_id <$> file_pairs rt f.
Proof.
  unfold file_rows, file_pairs, per_file_ids, rows_from_frame.
  destruct (loaded rt f) as [[[[df t] l] i]|]; [|done].
  destruct (prepare_frame df t l i) as [[df' l'] i'].
  rewrite <- !list_fmap_compose. apply omap_fmap_total. intros k.
  destruct (data_row_is_Some rt lm df' (stem f) t l' i' k) as [r Hr].
  exists r. split; [done|]. by apply data_row_global_id in Hr.
Qed.

Lemma elem_of_returned rows r :
  returned (merge_all rt) = inr rows → r ∈ rows →
  ∃ r0 f, r = with_original_text r0 ∧ f ∈ find_files rt INPUT_DIR
          ∧ r0 ∈ file_rows rt get_label_map f.
Proof.
  intros ->%merge_all_returned_exact (r0 & -> & Hr0)%list_elem_of_fmap.
  rewrite merge_loop_rows in Hr0.
  apply list_elem_of_In, in_concat in Hr0 as (l & Hl & Hr0).
  apply list_elem_of_In, list_elem_of_fmap in Hl as (f & -> & Hf).
  exists r0, f. split; [done|]. split; [done|]. by apply list_elem_of_In.
Qed.

End MergedFacts.

(** X13: in the frame [merge_all] returns every row is labelled normal,
    offensive or profanity, and its label is what [map_label_for_row] gives
    for the row's [source] and [label_orig] columns. *)
Theorem merged_labels_canonical (rt : runtime) (rows : list DataRow) (r : DataRow) :
  returned (merge_all rt) = inr rows → r ∈ rows →
  row_label r ∈ CANONICAL_LABELS
  ∧ map_label_for_row rt (str (cell r (py "source"))) (cell r (py "label_orig"))
      get_label_map = Some (row_label r).
Proof.
  intros Hret Hr.
  destruct (elem_of_returned rt rows r Hret Hr) as (r0 & f & -> & Hf & Hr0).
  apply elem_of_file_rows_prepared in Hr0 as (df & t & l & idc & i & _ & _ & Hrow).
  apply data_row_fields in Hrow as (_ & Hsrc & _ & Horig & m & Hm & Hl).
  unfold row_label, cell. rewrite !with_original_text_lookup.
  rewrite !decide_False by py_neq. rewrite Hsrc, Horig, Hl. simpl.
  split; [|done].
  destruct (map_label_for_row_final rt (stem f) (row_get df i l) get_label_map)
    as [m' Hm'].
  rewrite Hm' in Hm. injection Hm as <-. apply final_check_canonical.
Qed.

(** An instance of X13: the row of B.csv, labelled swear. *)
Lemma merged_labels_canonical_witness :
  row_label (default ∅ (merged_rows (merge_all rt_two_files) !! 1)) ∈ CANONICAL_LABELS
  ∧ map_label_for_row rt_two_files (py "B") (PyStr (py "swear")) get_label_map
    = Some (py "profanity").
Proof.
  destruct (merged_labels_canonical rt_two_files (merged_rows (merge_all rt_two_files))
              (default ∅ (merged_rows (merge_all rt_two_files) !! 1)))
    as [Hcan Hmap].
  - by_vm.
  - apply (list_elem_of_lookup_2 _ 1). by_vm.
  - split; [exact Hcan|]. rewrite <- Hmap at 1. by_vm.
Defined.


Lemma fixed_columns_split k :
  k ∈ fixed_columns
  ↔ k ∈ [py "global_id"; py "source"; py "text"; py "label_orig"; py "label"]
    ∨ k = ORIGINAL_TEXT_COL.
Proof.
  unfold fixed_columns.
  change [py "global_id"; py "source"; py "text"; py "label_orig"; py "label";
          ORIGINAL_TEXT_COL]
    with ([py "global_id"; py "source"; py "text"; py "label_orig"; py "label"]
          ++ [ORIGINAL_TEXT_COL]).
  by rewrite elem_of_app, list_elem_of_singleton.
Qed.

(** X15: the columns of a returned row are the six fixed ones, always
    present, and audit columns, whose names start with orig__; there is no
    other column. *)
Theorem merged_row_columns (rt : runtime) (rows : list DataRow) (r : DataRow) :
  returned (merge_all rt) = inr rows → r ∈ rows →
  (∀ k, k ∈ fixed_columns → is_Some (r !! k))
  ∧ (∀ k, is_Some (r !! k) → k ∈ fixed_columns ∨ ∃ n, k = py "orig__" ++ n).
Proof.
  intros Hret Hr.
  destruct (elem_of_returned rt rows r Hret Hr) as (r0 & f & -> & Hf & Hr0).
  apply elem_of_file_rows_prepared in Hr0 as (df & t & l & idc & i & _ & _ & Hrow).
  pose proof (data_row_audit rt _ _ _ _ _ _ _ _ Hrow) as [_ Hkeys].
  split.
  - intros k Hk%fixed_columns_split. rewrite with_original_text_lookup.
    case_decide; [by eexists|]. apply Hkeys. left. tauto.
  - intros k. rewrite with_original_text_lookup, fixed_columns_split.
    case_decide as Hk; [tauto|].
    intros [Hin|(c & _ & ->)]%Hkeys; [tauto|right; by eexists].
Qed.

(** X16: no row is dropped and none is added: the returned frame has as
    many rows as the discovered files that load with a text column have
    together, rows with a blank or unknown label and rows with the same
    text included. *)
Theorem merged_row_count (rt : runtime) (rows : list DataRow) :
  returned (merge_all rt) = inr rows →
  length rows = sum_list_with (file_nrows rt) (find_files rt INPUT_DIR).
Proof.
  intros ->%merge_all_returned_exact. rewrite length_fmap, merge_loop_rows.
  generalize (find_files rt INPUT_DIR). intros files.
  induction files as [|f r IH]; [done|].
  rewrite fmap_cons. cbn [concat sum_list_with].
  by rewrite length_app, length_file_rows, IH.
Qed.

(** X17: the rows come file by file in the sorted order of the paths and,
    within a file, in the order of its rows: their global ids are, in this
    order, the stem of the file, an underscore and the per-file id of the
    row. *)
Theorem merged_global_ids_in_order (rt : runtime) (rows : list DataRow) :
  returned (merge_all rt) = inr rows →
  global_id <$> rows
  = make_global_id <$> (find_files rt INPUT_DIR ≫= file_pairs rt).
Proof.
  intros ->%merge_all_returned_exact. rewrite <- list_fmap_compose.
  rewrite (list_fmap_ext (global_id ∘ with_original_text) global_id (all_rows _));
    last first.
  { intros j r _. unfold global_id, cell. simpl.
    rewrite with_original_text_lookup. by rewrite decide_False by py_neq. }
  rewrite merge_loop_rows.
  generalize (find_files rt INPUT_DIR). intros files.
  induction files as [|f r IH]; [done|].
  rewrite fmap_cons, bind_cons. cbn [concat]. rewrite !fmap_app, IH.
  by rewrite file_rows_global_ids_exact.
Qed.


(** An instance of X15: the row of A.csv. *)
Lemma merged_row_columns_witness :
  (∀ k, k ∈ fixed_columns → is_Some (nth_row (merge_all rt_two_files) 0 !! k))
  ∧ (∀ k, is_Some (nth_row (merge_all rt_two_files) 0 !! k) →
       k ∈ fixed_columns ∨ ∃ n, k = py "orig__" ++ n).
Proof.
  apply (merged_row_columns rt_two_files (merged_rows (merge_all rt_two_files))).
  - by_vm.
  - apply (list_elem_of_lookup_2 _ 0). by_vm.
Defined.

(** An instance of X16: three rows with the same text, one of them with a
    blank label, are all kept. *)
Lemma merged_row_count_witness :
  length (merged_rows (merge_all rt_repeated_text)) = 3.
Proof.
  rewrite (merged_row_count rt_repeated_text); by_vm.
Defined.

(** An instance of X17: two rows of A.csv, then the row of B.csv. *)
Lemma merged_global_ids_in_order_witness :
  global_id <$> merged_rows (merge_all rt_repeated_text)
  = [py "A_0"; py "A_1"; py "B_0"].
Proof.
  rewrite (merged_global_ids_in_order rt_repeated_text); by_vm.
Defined.

(** ** What a run writes and prints *)

(** X18: a run that returns a frame has written exactly three files, in
    the order merged data, per-source distribution, summary; the merged
    data are the returned rows, of which there is at least one, and the
    summary gives their number. *)
Theorem merge_all_writes_three (rt : runtime) (rows : list DataRow) :
  returned (merge_all rt) = inr rows →
  rows ≠ []
  ∧ ∃ table s,
      written (merge_all rt)
      = [ (OUTPUT_PATH, MergedCsv rows);
          (PER_SOURCE_DIST_OUT, PerSourceCsv table);
          (SUMMARY_JSON_OUT, SummaryJson s) ]
      ∧ summary_rows s = length rows.
Proof.
  intros Hret.
  destruct (all_rows (merge_loop rt get_label_map (find_files rt INPUT_DIR)))
    as [|r0 rs] eqn:Hrows.
  { by rewrite (merge_all_no_rows rt Hrows) in Hret. }
  destruct (merge_all_some_rows rt) as (T & out & Hrun & _).
  { by rewrite Hrows. }
  rewrite Hrun in Hret |- *. cbn [returned written] in *.
  injection Hret as <-. split; [by rewrite Hrows|]. by eexists _, _.
Qed.

(** An instance of X18. *)
Lemma merge_all_writes_three_witness :
  merged_rows (merge_all rt_two_files) ≠ []
  ∧ ∃ table s,
      written (merge_all rt_two_files)
      = [ (OUTPUT_PATH, MergedCsv (merged_rows (merge_all rt_two_files)));
          (PER_SOURCE_DIST_OUT, PerSourceCsv table);
          (SUMMARY_JSON_OUT, SummaryJson s) ]
      ∧ summary_rows s = length (merged_rows (merge_all rt_two_files)).
Proof.
  apply (merge_all_writes_three rt_two_files). by_vm.
Defined.

Lemma count_eq_fmap {A B} `{EqDecision B} (f : A → B) (x : B) (l : list A) :
  count_eq x (f <$> l) = length (filter (fun a => f a = x) l).
Proof.
  unfold count_eq. induction l as [|a l IH]; [done|].
  rewrite fmap_cons, !filter_cons. case_decide; simpl; by rewrite IH.
Qed.

Lemma foldl_value_counts (l : list pystr) (m : gmap pystr nat) x :
  foldl (fun m x => <[x := S (default 0 (m !! x))]> m) m l !! x
  = if decide (count_eq x l = 0) then m !! x
    else Some (count_eq x l + default 0 (m !! x)).
Proof.
  unfold count_eq. revert m; induction l as [|y r IH]; intros m; [done|].
  cbn [foldl]. rewrite IH, filter_cons. destruct (decide (y = x)) as [E|Hne];
    [subst y|].
  - rewrite lookup_insert_eq. cbn [length].
    rewrite (decide_False (P := S _ = 0)) by lia.
    generalize (length (filter (fun y => y = x) r)), (default 0 (m !! x)).
    clear IH. intros n d. destruct (decide (n = 0)); simpl; f_equal; lia.
  - by rewrite lookup_insert_ne.
Qed.

Lemma value_counts_lookup (l : list pystr) x :
  value_counts l !! x
  = if decide (count_eq x l = 0) then None else Some (count_eq x l).
Proof.
  unfold value_counts. rewrite foldl_value_counts, lookup_empty.
  case_decide; [done|]. simpl. f_equal. lia.
Qed.

(** X19: the label counts of the summary give, for each label, the number
    of returned rows that carry it; a label that no row carries has no
    entry. *)
Theorem summary_label_counts (rt : runtime) (rows : list DataRow) (s : Summary)
  (l : pystr) :
  returned (merge_all rt) = inr rows →
  run_summary (merge_all rt) = Some s →
  label_counts s !! l
  = let n := length (filter (fun r => row_label r = l) rows) in
    if decide (n = 0) then None else Some n.
Proof.
  intros Hret Hs.
  destruct (returned_rows rt rows Hret) as (T & _ & _ & Hsum).
  rewrite Hsum in Hs. injection Hs as <-. cbn [label_counts].
  by rewrite value_counts_lookup, count_eq_fmap.
Qed.

(** An instance of X19: of three rows two are normal, none is profanity. *)
Lemma summary_label_counts_witness :
  label_counts
    (MkSummary 3 {[ py "normal" := 2; py "offensive" := 1 ]}
               {[ py "A" := 2; py "B" := 1 ]}) !! py "normal" = Some 2.
Proof.
  rewrite (summary_label_counts rt_repeated_text
             (merged_rows (merge_all rt_repeated_text))); by_vm.
Defined.

Section Counts.

Context (rt : runtime).

Lemma process_file_counts_value lm acc f k :
  per_file_counts (process_file rt lm acc f) !! k
  = if decide (is_Some (loaded rt f) ∧ stem f = k)
    then Some (file_nrows rt f) else per_file_counts acc !! k.
Proof.
  rewrite <- (length_file_rows rt lm f).
  unfold process_file, file_rows, loaded, stem.
  destruct (safe_read_table rt f) as [e|df].
  { rewrite decide_False; [done|]. by intros [[? [=]] _]. }
  destruct (canonicalize_columns rt df) as [[[t|] l] i]; cbn [per_file_counts].
  - rewrite lookup_insert. case_decide as Hk.
    + by rewrite decide_True by (split; [by eexists|done]).
    + by rewrite decide_False by (by intros [_ ?]).
  - rewrite decide_False; [done|]. by intros [[? [=]] _].
Qed.

Lemma foldl_process_file_counts_value lm files acc k :
  per_file_counts (foldl (process_file rt lm) acc files) !! k
  = match last (filter (fun f => is_Some (loaded rt f) ∧ stem f = k) files) with
    | Some f => Some (file_nrows rt f)
    | None => per_file_counts acc !! k
    end.
Proof.
  revert acc; induction files as [|f r IH]; intros acc; [done|].
  cbn [foldl]. rewrite IH, process_file_counts_value, filter_cons.
  case_decide.
  - rewrite last_cons. by destruct (last _).
  - done.
Qed.

End Counts.

(** X20: the per-file count the summary gives for a name is the number of
    rows of the last discovered file, in sorted order, that has this stem
    and loads with a text column: an earlier file of the same stem is
    overwritten, and a name without such a file has no entry. *)
Theorem summary_file_count_value (rt : runtime) (s : Summary) (k : pystr) :
  run_summary (merge_all rt) = Some s →
  files_processed_counts s !! k
  = file_nrows rt
    <$> last (filter (fun f => is_Some (loaded rt f) ∧ stem f = k)
                     (find_files rt INPUT_DIR)).
Proof.
  intros Hs.
  destruct (all_rows (merge_loop rt get_label_map (find_files rt INPUT_DIR)))
    as [|r0 rs] eqn:Hrows.
  { by rewrite (merge_all_no_rows rt Hrows) in Hs. }
  destruct (merge_all_some_rows rt) as (T & out & Hrun & _).
  { by rewrite Hrows. }
  rewrite Hrun in Hs. injection Hs as <-. cbn [files_processed_counts].
  unfold merge_loop. rewrite foldl_process_file_counts_value. cbn [per_file_counts].
  rewrite lookup_empty. by destruct (last _).
Qed.

(** An instance of X20: of the two files named a.csv only the second one
    is counted. *)
Lemma summary_file_count_value_witness :
  files_processed_counts
    (MkSummary 2 {[ py "normal" := 2 ]} {[ py "a" := 1 ]}) !! py "a"
  = file_nrows rt_same_stem
    <$> last (filter (fun f => is_Some (loaded rt_same_stem f) ∧ stem f = py "a")
                     (find_files rt_same_stem INPUT_DIR)).
Proof.
  apply (summary_file_count_value rt_same_stem). by_vm.
Defined.

Section Printed.

Context (rt : runtime).

Lemma process_file_printed lm acc f :
  printed (process_file rt lm acc f) = printed acc ++ [file_event rt lm f].
Proof.
  unfold process_file, file_event, file_rows, loaded, stem.
  destruct (safe_read_table rt f) as [e|df]; [done|].
  by destruct (canonicalize_columns rt df) as [[[t|] l] i].
Qed.

Lemma foldl_process_file_printed lm files acc :
  printed (foldl (process_file rt lm) acc files)
  = printed acc ++ (file_event rt lm <$> files).
Proof.
  revert acc; induction files as [|f r IH]; intros acc; cbn [foldl].
  - by rewrite app_nil_r.
  - by rewrite IH, process_file_printed, <- app_assoc.
Qed.

Lemma merge_loop_printed lm files :
  printed (merge_loop rt lm files)
  = FoundFiles (length files) :: (file_event rt lm <$> files).
Proof. unfold merge_loop. by rewrite foldl_process_file_printed. Qed.

End Printed.

(** X21: a run prints the number of files found, then one line per
    discovered file in sorted order (the warning that it could not be
    read, the warning that it has no text column, or the number of rows
    collected from it); when it raises nothing follows, and when it
    returns a frame exactly four lines follow: the duplicate report, then
    the three save reports.  The warning about labels outside the three
    canonical ones is never printed. *)
Theorem merge_all_stdout (rt : runtime) :
  ∃ tail,
    stdout (merge_all rt)
    = FoundFiles (length (find_files rt INPUT_DIR))
      :: (file_event rt get_label_map <$> find_files rt INPUT_DIR) ++ tail
    ∧ match returned (merge_all rt) with
      | inl _ => tail = []
      | inr rows =>
          ∃ info, tail = [info; SavedMerged (length rows); SavedPerSource; SavedSummary]
                  ∧ (info = InfoNoDuplicates ∨ ∃ d, 0 < d ∧ info = InfoDuplicates d)
      end.
Proof.
  pose proof (all_rows_labels_canonical rt get_label_map (find_files rt INPUT_DIR)) as Hcan.
  pose proof (all_rows_no_original_text rt get_label_map (find_files rt INPUT_DIR)) as Hno.
  pose proof (merge_loop_printed rt get_label_map (find_files rt INPUT_DIR)) as Hpr.
  unfold merge_all.
  destruct (all_rows _) as [|r0 rs] eqn:Hrows.
  { exists []. cbn [stdout returned Nat.eqb length]. by rewrite Hpr, app_nil_r. }
  change (Nat.eqb (length (r0 :: rs)) 0) with false. cbv iota.
  set (merged := r0 :: rs) in *.
  assert (filter (fun l => l ∉ CANONICAL_LABELS) (remove_dups (row_label <$> merged)) = [])
    as ->.
  { destruct (filter _ _) as [|b bs] eqn:Hf; [done|]. exfalso.
    assert (b ∈ filter (fun l => l ∉ CANONICAL_LABELS) (remove_dups (row_label <$> merged)))
      as [Hb Hin]%list_elem_of_filter by (rewrite Hf; constructor).
    apply elem_of_remove_dups, list_elem_of_fmap in Hin as (r & -> & Hr).
    by apply Hb, Hcan. }
  cbv zeta iota beta. rewrite Hno. cbn [negb stdout returned]. rewrite Hpr.
  eexists. split.
  - rewrite <- !app_assoc. cbn [app]. reflexivity.
  - eexists. split; [reflexivity|].
    destruct (Nat.ltb_spec 0 (duplicated_count []
                ((fun r => str (cell r (py "text"))) <$> merged))); [right|left; done].
    by eexists.
Qed.

(** ** The per-source distribution *)







(** ** Positional ids and the table of the script *)

(** X23: a file without an id column whose frame has the default index
    contributes one row per position, with the global ids stem_0, stem_1
    and so on, in this order. *)
Theorem positional_global_ids (rt : runtime) (label_map : LabelMap) (f : pystr)
  (df : DataFrame) (text_col : pystr) (label_col : option pystr) :
  loaded rt f = Some (df, text_col, label_col, None) →
  df_index df = RangeIndex (nrows df) →
  global_id <$> file_rows rt label_map f
  = (fun i => stem f ++ py "_" ++ str_of_nat i) <$> seq 0 (nrows df).
Proof.
  intros Hl Hidx. rewrite file_rows_global_ids_exact. unfold file_pairs.
  destruct (per_file_ids rt f) as [ids|] eqn:Hids.
  - destruct (positional_ids_well_formed rt f df text_col label_col ids Hl Hidx Hids)
      as [-> _].
    by rewrite <- !list_fmap_compose.
  - unfold per_file_ids in Hids. rewrite Hl in Hids.
    by destruct (prepare_frame _ _ _ _) as [[? ?] ?].
Qed.

(** An instance of X23: the two rows of A.csv. *)
Lemma positional_global_ids_witness :
  global_id <$> file_rows rt_repeated_text get_label_map (py "All_datasets/A.csv")
  = (fun i => stem (py "All_datasets/A.csv") ++ py "_" ++ str_of_nat i) <$> seq 0 2.
Proof.
  apply (positional_global_ids rt_repeated_text get_label_map (py "All_datasets/A.csv")
           (labelled_frame [(py "hello", py "0"); (py "hello", py "hate")])
           (py "text") (Some (py "label")));
    vm_compute; reflexivity.
Defined.

Lemma get_label_map_all_canonical :
  ∃ t, get_label_map !! py "all" = Some t
       ∧ get_label_map !! [] = None
       ∧ (∀ src, src ≠ py "all" → get_label_map !! src = None)
       ∧ map_Forall (fun _ v => v ∈ CANONICAL_LABELS) t.
Proof.
  unfold get_label_map. eexists. split; [apply lookup_singleton_eq|].
  split; [by rewrite lookup_singleton_ne by py_neq|].
  split; [intros src Hsrc; by rewrite lookup_singleton_ne|].
  apply (bool_decide_unpack _). vm_compute. exact I.
Qed.

(** X24: with the table the script ships, a label listed in it (after
    trimming) maps to exactly the class listed, for every source; so
    abusive gives profanity although the keyword sets count it as
    offensive.  [str.lower] is only required to leave the three canonical
    labels as they are. *)
Theorem shipped_table_is_exact (rt : runtime) (src : pystr) (lbl_raw : pyval)
  (v : pystr) :
  (∀ l, l ∈ CANONICAL_LABELS → str_lower rt l = l) →
  get_label_map !! py "all" ≫= (.!! trim_label lbl_raw) = Some v →
  map_label_for_row rt src lbl_raw get_label_map = Some v.
Proof.
  intros Hlow Hv.
  destruct get_label_map_all_canonical as (t & Ht & Hno & Hother & Hcan).
  assert (v ∈ CANONICAL_LABELS) as Hvc.
  { rewrite Ht in Hv. simpl in Hv. by apply (Hcan _ _ Hv). }
  assert (get_label_map !! src ≫= (.!! trim_label lbl_raw) = Some v
          ∨ get_label_map !! src ≫= (.!! trim_label lbl_raw) = None) as Hsrc.
  { destruct (decide (src = py "all")) as [->|Hne]; [by left|].
    right. by rewrite (Hother src Hne). }
  unfold map_label_for_row.
  assert (strip (str_lower rt v) = v) as Hfix.
  { rewrite Hlow by done. by apply strip_canonical. }
  destruct Hsrc as [->| ->]; [|rewrite Hv]; cbv zeta iota beta; rewrite Hfix;
    unfold str_in; by rewrite bool_decide_eq_true_2.
Qed.

(** An instance of X24. *)
Lemma shipped_table_is_exact_witness :
  map_label_for_row rt_empty_dir (py "D1") (PyStr (py " abusive ")) get_label_map
  = Some (py "profanity").
Proof.
  apply (shipped_table_is_exact rt_empty_dir).
  - intros l Hl. unfold CANONICAL_LABELS in Hl.
    rewrite !elem_of_cons, elem_of_nil in Hl.
    destruct Hl as [->|[->|[->|[]]]]; vm_compute; reflexivity.
  - vm_compute. reflexivity.
Defined.
